(** * MGW1 Chess: the shared-board server (src/app.py, src/modules/helper.py)

    A shallow embedding of the Flask handlers of [app.py] and of the helper
    classes of [modules/helper.py], over an interface for the python-chess
    library they call.  Process-wide globals ([board], [move_owners],
    [manager], [tracker]) become one explicit state record that every handler
    takes and returns; Python exceptions become the left summand of a result
    type, and a handler that raises keeps the mutations made before the raise. *)

From Stdlib Require Import List String Ascii Bool Arith PeanoNat Lia ZArith DecimalString.
Import ListNotations.
Open Scope string_scope.
Open Scope list_scope.
Set Warnings "-register-all".

(** ** Python results: a value, or an exception that propagates *)
Module Py.

Inductive exn := IndexError | ValueError.

Definition M (A : Type) : Type := (exn + A)%type.

Definition ret {A} (a : A) : M A := inr a.
Definition raise {A} (e : exn) : M A := inl e.

Definition bind {A B} (m : M A) (k : A -> M B) : M B :=
  match m with
  | inl e => inl e
  | inr a => k a
  end.

(** [l[-1]]: the last item; IndexError on the empty list. *)
Fixpoint item_last {A} (l : list A) : M A :=
  match l with
  | [] => raise IndexError
  | [x] => ret x
  | _ :: l' => item_last l'
  end.

(** [l[-1] = f(l[-1])] as one step on the list: rewrites the last item in
    place; IndexError on the empty list. *)
Fixpoint update_last {A} (f : A -> A) (l : list A) : M (list A) :=
  match l with
  | [] => raise IndexError
  | [x] => ret [f x]
  | x :: l' => bind (update_last f l') (fun l'' => ret (x :: l''))
  end.

(** [v or default] on an optional string: [None] and the empty string are
    falsy. *)
Definition or_default (v : option string) (default : string) : string :=
  match v with
  | Some (String c s) => String c s
  | Some EmptyString => default
  | None => default
  end.

(** [datetime.now()], as far as the server reads it, and
    [strftime("%Y.%m.%d")]: the year on four digits, month and day on two. *)
Record date : Type := { year : nat; month : nat; day : nat }.

Definition decimal (n : nat) : string := NilEmpty.string_of_uint (Nat.to_uint n).

Definition zero_padded (width n : nat) : string :=
  let digits := decimal n in
  (string_of_list_ascii (repeat "0"%char (width - String.length digits)) ++ digits)%string.

Definition strftime_Ymd (d : date) : string :=
  (zero_padded 4 (year d) ++ "." ++ zero_padded 2 (month d) ++ "." ++ zero_padded 2 (day d))%string.

End Py.

Notation "x <- m ;; k" := (Py.bind m (fun x => k))
  (at level 61, m at next level, right associativity).

(** ** The python-chess interface

    The fields are the functions and attributes the two source files use; the
    laws are the part of the library's contract the properties below rest on.
    Squares are python-chess's integers 0..63.

    - [parse_square] and [parse_uci] raise nothing but ValueError (the
      library's InvalidMoveError and IllegalMoveError are ValueErrors);
    - every square of the board has a name, and a move's text is four or five
      characters ("0000", or two squares and perhaps a promotion letter);
    - a new board has an empty move stack, and [reset] gives the new board;
    - a move [parse_uci] returned and the board holds legal is one of the
      moves the board lists, and pushing a move [parse_uci] returned appends
      that move to the stack (the laws speak of parsed moves only: castling
      given as king takes rook is accepted by [in] and by [push], which keep
      the king's two-square move instead);
    - a listed legal move goes from a piece to a square of the board;
    - the result is one of the four PGN results. *)
Module chess.

Class Lib : Type := {
  Board : Type;
  Move : Type;
  Piece : Type;
  (* module level *)
  parse_square : string -> Py.M nat;          (* ValueError on a bad name *)
  square_name : nat -> Py.M string;           (* SQUARE_NAMES[square] *)
  (* chess.Move *)
  from_square : Move -> nat;
  to_square : Move -> nat;
  uci : Move -> string;
  (* chess.Board *)
  Board_new : Board;                          (* chess.Board() *)
  reset : Board -> Board;                     (* board.reset() *)
  parse_uci : Board -> string -> Py.M Move;   (* ValueError on bad or illegal text *)
  legal_moves : Board -> list Move;           (* iterating board.legal_moves *)
  legal_moves_contains : Board -> Move -> bool; (* move in board.legal_moves *)
  push : Board -> Move -> Board;
  move_stack : Board -> list Move;
  fen : Board -> string;
  is_game_over : Board -> bool;
  result : Board -> string;
  turn : Board -> bool;                       (* chess.WHITE = True *)
  is_check : Board -> bool;
  piece_at : Board -> nat -> option Piece;
  (* contract *)
  parse_square_raises :
    forall s e, parse_square s = inl e -> e = Py.ValueError;
  parse_uci_raises :
    forall b s e, parse_uci b s = inl e -> e = Py.ValueError;
  square_name_valid :
    forall sq, sq < 64 -> exists s, square_name sq = inr s;
  uci_length :
    forall m, String.length (uci m) <= 5;
  move_stack_new :
    move_stack Board_new = [];
  reset_new :
    forall b, reset b = Board_new;
  parse_uci_legal :
    forall b s m, parse_uci b s = inr m -> legal_moves_contains b m = true ->
      In m (legal_moves b);
  move_stack_push :
    forall b s m, parse_uci b s = inr m -> move_stack (push b m) = move_stack b ++ [m];
  legal_moves_valid :
    forall b m, In m (legal_moves b) ->
      from_square m < 64 /\ to_square m < 64 /\ piece_at b (from_square m) <> None;
  result_values :
    forall b, In (result b) ["1-0"; "0-1"; "1/2-1/2"; "*"]
}.

Definition WHITE : bool := true.

(** The board after playing a line of moves from the starting position, and
    the lines in which every move is legal where it is played. *)
Definition replay `{Lib} (ms : list Move) : Board := fold_left push ms Board_new.

Inductive LegalLine `{Lib} : list Move -> Prop :=
| LegalLine_nil : LegalLine []
| LegalLine_snoc ms m :
    LegalLine ms -> In m (legal_moves (replay ms)) -> LegalLine (ms ++ [m]).

(** *** chess.pgn: the game tree

    A node holds its move, its comment and its variations; the root ([Game])
    holds the headers and the first moves.  Python code keeps a reference to a
    node of the tree; here a node is addressed by its path, the list of child
    indices from the root. *)
Module pgn.
Section Tree.
Context `{Lib}.

Inductive GameNode : Type :=
| ChildNode (move : Move) (comment : string) (variations : list GameNode).

Record Game : Type := {
  headers : list (string * string);
  variations : list GameNode
}.

(** [chess.pgn.Game()]: the seven tag roster, no moves. *)
Definition Game_new : Game :=
  {| headers := [("Event", "?"); ("Site", "?"); ("Date", "????.??.??");
                 ("Round", "?"); ("White", "?"); ("Black", "?"); ("Result", "*")];
     variations := [] |}.

(** [headers[key] = value] *)
Fixpoint set_item (key value : string) (hs : list (string * string))
  : list (string * string) :=
  match hs with
  | [] => [(key, value)]
  | (k, v) :: hs' =>
      if String.eqb k key then (k, value) :: hs' else (k, v) :: set_item key value hs'
  end.

Definition set_header (key value : string) (g : Game) : Game :=
  {| headers := set_item key value (headers g); variations := variations g |}.

(** Applies [f] to the variation list of the node at [path]. *)
Fixpoint at_path (f : list GameNode -> list GameNode) (path : list nat)
    (vs : list GameNode) : list GameNode :=
  match path with
  | [] => f vs
  | i :: path' =>
      match nth_error vs i with
      | Some (ChildNode m c sub) =>
          firstn i vs ++ ChildNode m c (at_path f path' sub) :: skipn (S i) vs
      | None => vs
      end
  end.

(** The variation list of the node at [path] (empty off the tree). *)
Fixpoint variations_at (path : list nat) (vs : list GameNode) : list GameNode :=
  match path with
  | [] => vs
  | i :: path' =>
      match nth_error vs i with
      | Some (ChildNode _ _ sub) => variations_at path' sub
      | None => []
      end
  end.

(** [node.add_variation(move)]: a new last child of the node at [path], with
    an empty comment; returns the tree and the path of the child. *)
Definition add_variation (g : Game) (path : list nat) (mv : Move)
  : Game * list nat :=
  let k := List.length (variations_at path (variations g)) in
  ({| headers := headers g;
      variations := at_path (fun vs => vs ++ [ChildNode mv "" []]) path (variations g) |},
   path ++ [k]).

(** Rewrites the comment of the [i]-th node of a variation list. *)
Definition comment_nth (i : nat) (c : string) (vs : list GameNode) : list GameNode :=
  match nth_error vs i with
  | Some (ChildNode m _ sub) => firstn i vs ++ ChildNode m c sub :: skipn (S i) vs
  | None => vs
  end.

(** [node.comment = c] for the node at [path] (a child node: the path is not
    empty). *)
Definition set_comment (g : Game) (path : list nat) (c : string) : Game :=
  match rev path with
  | [] => g
  | i :: rparent =>
      {| headers := headers g;
         variations := at_path (comment_nth i c) (rev rparent) (variations g) |}
  end.

(** [game.mainline()]: the first variation at every node, with its comment. *)
Fixpoint mainline_node (n : GameNode) : list (Move * string) :=
  match n with
  | ChildNode m c sub =>
      (m, c) :: match sub with
                | [] => []
                | n' :: _ => mainline_node n'
                end
  end.

Definition mainline (g : Game) : list (Move * string) :=
  match variations g with
  | [] => []
  | n :: _ => mainline_node n
  end.

Definition mainline_moves (g : Game) : list Move := map fst (mainline g).

(** A game without side lines: no node has two variations. *)
Fixpoint linear_node (n : GameNode) : bool :=
  match n with
  | ChildNode _ _ [] => true
  | ChildNode _ _ [c] => linear_node c
  | ChildNode _ _ (_ :: _ :: _) => false
  end.

Definition linear (g : Game) : bool :=
  match variations g with
  | [] => true
  | [c] => linear_node c
  | _ :: _ :: _ => false
  end.

(** Header values the exporter writes on one line each. *)
Definition one_line (s : string) : bool :=
  forallb (fun c => negb (Ascii.eqb c "010"%char || Ascii.eqb c "013"%char))
          (list_ascii_of_string s).

(** A game that starts from the standard position: only the tags of the seven
    tag roster, each value on one line. *)
Definition roster_only (g : Game) : bool :=
  forallb (fun kv => existsb (String.eqb (fst kv)) (map fst (headers Game_new))
                     && one_line (snd kv))
          (headers g).

End Tree.

(** [str(game)] and [chess.pgn.read_game]: the PGN exporter and reader.  The
    law is the reader/exporter contract for a game without side lines that
    starts from the standard position and whose moves are legal: the text
    reads back to a game with the same mainline moves. *)
Class Codec `{Lib} : Type := {
  to_str : Game -> string;
  read_game : string -> option Game;
  read_to_str :
    forall g, roster_only g = true -> linear g = true ->
      LegalLine (mainline_moves g) ->
      exists g', read_game (to_str g) = Some g' /\ mainline_moves g' = mainline_moves g
}.

End pgn.
End chess.

(** ** modules/helper.py *)
Module helper.

(** *** class OrientationManager *)
Record OrientationManager : Type := { orientation : string }.

Definition OrientationManager_init : OrientationManager :=
  {| orientation := "white" |}.

Definition reset_orientation (self : OrientationManager) : OrientationManager :=
  {| orientation := "white" |}.

Definition get_orientation (self : OrientationManager) : string :=
  orientation self.

Definition toggle_orientation (self : OrientationManager) : OrientationManager :=
  {| orientation := if String.eqb (orientation self) "white" then "black" else "white" |}.

(** *** class PGN_Tracker

    A row is the dict with the five keys "Move #", "White Move", "White User",
    "Black Move" and "Black User". *)
Record MoveRow : Type := {
  Move_no : nat;
  White_Move : string;
  White_User : string;
  Black_Move : string;
  Black_User : string
}.

Definition set_Black_Move (v : string) (r : MoveRow) : MoveRow :=
  {| Move_no := Move_no r; White_Move := White_Move r; White_User := White_User r;
     Black_Move := v; Black_User := Black_User r |}.

Definition set_Black_User (v : string) (r : MoveRow) : MoveRow :=
  {| Move_no := Move_no r; White_Move := White_Move r; White_User := White_User r;
     Black_Move := Black_Move r; Black_User := v |}.

Record PGN_Tracker : Type := { moves_list : list MoveRow }.

Definition PGN_Tracker_init : PGN_Tracker := {| moves_list := [] |}.

Definition PGN_Tracker_reset (self : PGN_Tracker) : PGN_Tracker :=
  {| moves_list := [] |}.

Definition get_moves_list (self : PGN_Tracker) : list MoveRow := moves_list self.

Section WithChess.
Context `{L : chess.Lib} `{C : @chess.pgn.Codec L}.

(** [update_moves_list(self, board, move_owners, orientation)].  The result is
    the tracker as the call leaves it and what the call did: returned, or
    raised.  In the else branch the two assignments are two steps, so a raise
    in the second keeps the first. *)
Definition update_moves_list (self : PGN_Tracker) (board : chess.Board)
    (move_owners : list string) (orientation : string)
  : PGN_Tracker * Py.M unit :=
  let move_index := List.length (moves_list self) * 2 in
  let move_number := move_index / 2 + 1 in
  if String.eqb orientation "white" then
    match
      (mv <- Py.item_last (chess.move_stack board) ;;
       owner <- Py.item_last move_owners ;;
       Py.ret {| Move_no := move_number;
                 White_Move := chess.uci mv;
                 White_User := owner;
                 Black_Move := "waiting";
                 Black_User := "waiting" |})
    with
    | inl e => (self, inl e)
    | inr move_data => ({| moves_list := moves_list self ++ [move_data] |}, inr tt)
    end
  else
    match
      (mv <- Py.item_last (chess.move_stack board) ;;
       Py.update_last (set_Black_Move (chess.uci mv)) (moves_list self))
    with
    | inl e => (self, inl e)
    | inr rows1 =>
        let self1 := {| moves_list := rows1 |} in
        match
          (owner <- Py.item_last move_owners ;;
           Py.update_last (set_Black_User owner) rows1)
        with
        | inl e => (self1, inl e)
        | inr rows2 => ({| moves_list := rows2 |}, inr tt)
        end
    end.

(** [enumerate(l)] *)
Definition enumerate {A} (l : list A) : list (nat * A) :=
  combine (seq 0 (List.length l)) l.

(** The game tree [current_pgn] builds before it is printed; [now] is what
    [datetime.now()] returns. *)
Definition current_pgn_game (board : chess.Board) (move_owners : list string)
    (now : Py.date) : chess.pgn.Game :=
  let game := chess.pgn.Game_new in
  let game := chess.pgn.set_header "Event" "Office Chess" game in
  let game := chess.pgn.set_header "Site" "MGW1" game in
  let game := chess.pgn.set_header "Date" (Py.strftime_Ymd now) game in
  let game := chess.pgn.set_header "Round" "1" game in
  let game := chess.pgn.set_header "Result" (chess.result board) game in
  fst (fold_left
         (fun (acc : chess.pgn.Game * list nat) (imv : nat * chess.Move) =>
            let '(game, node) := acc in
            let '(i, mv) := imv in
            let '(game, node) := chess.pgn.add_variation game node mv in
            if (i <? List.length move_owners)%nat then
              (chess.pgn.set_comment game node
                 ("Move made by " ++ nth i move_owners "")%string, node)
            else (game, node))
         (enumerate (chess.move_stack board))
         (game, [])).

Definition current_pgn (board : chess.Board) (move_owners : list string)
    (now : Py.date) : string :=
  chess.pgn.to_str (current_pgn_game board move_owners now).

Definition status_text (board : chess.Board) : string :=
  if chess.is_game_over board then
    let r := chess.result board in
    if String.eqb r "1-0" then "Checkmate! White wins!"
    else if String.eqb r "0-1" then "Checkmate! Black wins!"
    else if String.eqb r "1/2-1/2" then "Game over. Draw!"
    else "Game over."
  else
    let turn_str := if Bool.eqb (chess.turn board) chess.WHITE then "White" else "Black" in
    if chess.is_check board then (turn_str ++ " to move, and they're in check!")%string
    else (turn_str ++ " to move.")%string.

End WithChess.
End helper.

(** ** app.py *)
Module app.

(** What a request brings: its method, the posted form, the name the login
    module reads from the cookie ([login.get_username_cookie()]), and the
    clock's reading while it is handled. *)
Record Request : Type := {
  method : string;
  form : list (string * string);
  username_cookie : option string;
  now : Py.date
}.

(** [request.form.get(key)]: [None] when the field is absent. *)
Fixpoint form_lookup (fields : list (string * string)) (key : string) : option string :=
  match fields with
  | [] => None
  | (k, v) :: fields' => if String.eqb k key then Some v else form_lookup fields' key
  end.

(** [request.form.get(key, default)] *)
Fixpoint form_get (fields : list (string * string)) (key default : string) : string :=
  match fields with
  | [] => default
  | (k, v) :: fields' => if String.eqb k key then v else form_get fields' key default
  end.

(** The payload of a "board_update" event; the one [reset] sends has no
    "moves". *)
Record BoardUpdate : Type := {
  bu_fen : string;
  bu_pgn : string;
  bu_statusText : string;
  bu_orientation : string;
  bu_moves : option (list helper.MoveRow)
}.

Inductive Response : Type :=
| Json_moves (moves : list string)
| Json_error (message : string)
| Json_ok (fen orientation : string) (moves : list helper.MoveRow)
| Json_status (fen pgn statusText orientation : string) (moves : list helper.MoveRow)
| Redirect (endpoint : string)
| Rendered (template : string) (arguments : list (string * string))
| Text (body : string) (status : nat).

Inductive Route : Type := Legal_moves | Make_move | Game_status | Reset_game | Index.

Section WithChess.
Context `{L : chess.Lib} `{C : @chess.pgn.Codec L}.

(** The module's globals. *)
Record App : Type := {
  board : chess.Board;
  move_owners : list string;
  manager : helper.OrientationManager;
  tracker : helper.PGN_Tracker
}.

Definition App_init : App :=
  {| board := chess.Board_new;
     move_owners := [];
     manager := helper.OrientationManager_init;
     tracker := helper.PGN_Tracker_init |}.

(** What a handler leaves behind: the globals, the events it emitted, and its
    response or the exception that escaped it. *)
Record Handled : Type := {
  state : App;
  emitted : list BoardUpdate;
  outcome : Py.M Response
}.

Definition legal_moves (st : App) (rq : Request) : Handled :=
  let square_str := form_get (form rq) "square" "" in
  match chess.parse_square square_str with
  | inl Py.ValueError =>
      {| state := st; emitted := []; outcome := inr (Json_moves []) |}
  | inl e => {| state := st; emitted := []; outcome := inl e |}
  | inr from_sq =>
      let possible_moves :=
        fold_left
          (fun (acc : Py.M (list string)) (m : chess.Move) =>
             possible_moves <- acc ;;
             if (chess.from_square m =? from_sq)%nat then
               name <- chess.square_name (chess.to_square m) ;;
               Py.ret (possible_moves ++ [name])
             else Py.ret possible_moves)
          (chess.legal_moves (board st))
          (Py.ret []) in
      {| state := st; emitted := [];
         outcome := (possible_moves <- possible_moves ;; Py.ret (Json_moves possible_moves)) |}
  end.

Definition make_move (st : App) (rq : Request) : Handled :=
  let move_uci := form_get (form rq) "move" "" in
  match chess.parse_uci (board st) move_uci with
  | inl Py.ValueError =>
      {| state := st; emitted := []; outcome := inr (Json_error "Invalid move syntax.") |}
  | inl e => {| state := st; emitted := []; outcome := inl e |}
  | inr move =>
      if chess.legal_moves_contains (board st) move then
        let board1 := chess.push (board st) move in
        let name_in_cookie := Py.or_default (username_cookie rq) "Anonymous" in
        let move_owners1 := move_owners st ++ [name_in_cookie] in
        let '(tracker1, updated) :=
          helper.update_moves_list (tracker st) board1 move_owners1
            (helper.get_orientation (manager st)) in
        match updated with
        | inl e =>
            {| state := {| board := board1; move_owners := move_owners1;
                           manager := manager st; tracker := tracker1 |};
               emitted := []; outcome := inl e |}
        | inr _ =>
            let manager1 := helper.toggle_orientation (manager st) in
            {| state := {| board := board1; move_owners := move_owners1;
                           manager := manager1; tracker := tracker1 |};
               emitted :=
                 [{| bu_fen := chess.fen board1;
                     bu_pgn := helper.current_pgn board1 move_owners1 (now rq);
                     bu_statusText := helper.status_text board1;
                     bu_orientation := helper.get_orientation manager1;
                     bu_moves := Some (helper.get_moves_list tracker1) |}];
               outcome :=
                 inr (Json_ok (chess.fen board1) (helper.get_orientation manager1)
                        (helper.get_moves_list tracker1)) |}
        end
      else
        {| state := st; emitted := []; outcome := inr (Json_error "Illegal move.") |}
  end.

Definition game_status (st : App) (rq : Request) : Handled :=
  {| state := st; emitted := [];
     outcome :=
       inr (Json_status (chess.fen (board st))
              (helper.current_pgn (board st) (move_owners st) (now rq))
              (helper.status_text (board st))
              (helper.get_orientation (manager st))
              (helper.get_moves_list (tracker st))) |}.

Definition reset (st : App) (rq : Request) : Handled :=
  let board1 := chess.reset (board st) in
  let move_owners1 : list string := [] in
  let tracker1 := helper.PGN_Tracker_reset (tracker st) in
  let manager1 := helper.reset_orientation (manager st) in
  {| state := {| board := board1; move_owners := move_owners1;
                 manager := manager1; tracker := tracker1 |};
     emitted :=
       [{| bu_fen := chess.fen board1;
           bu_pgn := helper.current_pgn board1 move_owners1 (now rq);
           bu_statusText := helper.status_text board1;
           bu_orientation := helper.get_orientation manager1;
           bu_moves := None |}];
     outcome := inr (Redirect "index") |}.

(** [index]: the login page or the board page.  The session and the cookie
    it sets belong to the login module; the globals are only read. *)
Definition index (st : App) (rq : Request) : Handled :=
  let name_in_cookie := username_cookie rq in
  let fen := chess.fen (board st) in
  let page (r : Response) := {| state := st; emitted := []; outcome := inr r |} in
  if String.eqb (method rq) "GET" then
    match name_in_cookie with
    | Some (String c s) => page (Rendered "index.html" [("fen", fen); ("name", String c s)])
    | _ => page (Rendered "login.html" [])
    end
  else if String.eqb (method rq) "POST" then
    match form_lookup (form rq) "name" with
    | Some (String c s) => page (Rendered "index.html" [("fen", fen); ("name", String c s)])
    | _ => page (Rendered "login.html" [("error", "Please enter a name.")])
    end
  else page (Text "Something unexpected happened" 400).

(** The server: one request after the other on the shared globals.  A request
    whose handler raised is answered with an error page and the globals stay
    as the handler left them. *)
Definition handle (st : App) (req : Route * Request) : Handled :=
  match fst req with
  | Legal_moves => legal_moves st (snd req)
  | Make_move => make_move st (snd req)
  | Game_status => game_status st (snd req)
  | Reset_game => reset st (snd req)
  | Index => index st (snd req)
  end.

Definition serve (st : App) (reqs : list (Route * Request)) : App :=
  fold_left (fun st req => state (handle st req)) reqs st.

(** A move attempt succeeded when it answered with status "ok". *)
Definition succeeded (h : Handled) : bool :=
  match outcome h with
  | inr (Json_ok _ _ _) => true
  | _ => false
  end.

(** The number of successful move attempts since the last reset (or since
    the start), counted along the requests served. *)
Definition count_step (acc : App * nat) (req : Route * Request) : App * nat :=
  let '(st, n) := acc in
  let h := handle st req in
  (state h,
   match fst req with
   | Reset_game => 0
   | Make_move => if succeeded h then S n else n
   | _ => n
   end).

Definition moves_since_reset (reqs : list (Route * Request)) : nat :=
  snd (fold_left count_step reqs (App_init, 0)).

End WithChess.
End app.

(** ** A reference model of the library: standard chess

    The rules of chess on a 64-cell board, with the texts python-chess uses
    for squares, moves and positions.  It is the model the contract of
    [chess.Lib] is checked against, and the library the scenarios further
    down are run with. *)
Module engine.

Inductive Kind : Type := Pawn | Knight | Bishop | Rook | Queen | King.

(** [color]: white is [true], as [chess.WHITE]. *)
Record Piece : Type := { color : bool; kind : Kind }.

(** [chess.Move]: squares are 0..63, a1 = 0, b1 = 1, ..., h8 = 63; the null
    move goes from a1 to a1. *)
Record Move : Type := { from_square : nat; to_square : nat; promotion : option Kind }.

Record Position : Type := {
  cells : list (option Piece);
  turn : bool;
  castle_K : bool;
  castle_Q : bool;
  castle_k : bool;
  castle_q : bool;
  ep_square : option nat;
  halfmove_clock : nat;
  fullmove_number : nat
}.

(** A board is its position and the way it got there: the earlier positions
    with the move played in each, the latest first. *)
Record Board : Type := {
  position : Position;
  history : list (Position * Move)
}.

Definition kind_eqb (a b : Kind) : bool :=
  match a, b with
  | Pawn, Pawn | Knight, Knight | Bishop, Bishop
  | Rook, Rook | Queen, Queen | King, King => true
  | _, _ => false
  end.

Definition piece_eqb (a b : Piece) : bool :=
  Bool.eqb (color a) (color b) && kind_eqb (kind a) (kind b).

Definition option_eqb {A} (eqb : A -> A -> bool) (a b : option A) : bool :=
  match a, b with
  | Some x, Some y => eqb x y
  | None, None => true
  | _, _ => false
  end.

Fixpoint list_eqb {A} (eqb : A -> A -> bool) (a b : list A) : bool :=
  match a, b with
  | [], [] => true
  | x :: a', y :: b' => eqb x y && list_eqb eqb a' b'
  | _, _ => false
  end.

Definition move_eqb (a b : Move) : bool :=
  (from_square a =? from_square b)%nat && (to_square a =? to_square b)%nat
  && option_eqb kind_eqb (promotion a) (promotion b).

Definition null_move : Move := {| from_square := 0; to_square := 0; promotion := None |}.

Definition is_null (m : Move) : bool := move_eqb m null_move.

(** *** Squares *)

Definition file_of (sq : nat) : Z := Z.of_nat (sq mod 8).
Definition rank_of (sq : nat) : Z := Z.of_nat (sq / 8).

Definition sq_at (f r : Z) : option nat :=
  if ((0 <=? f) && (f <? 8) && (0 <=? r) && (r <? 8))%Z
  then Some (Z.to_nat (r * 8 + f))
  else None.

Definition piece_on (cs : list (option Piece)) (sq : nat) : option Piece :=
  nth sq cs None.

Definition put (cs : list (option Piece)) (sq : nat) (v : option Piece)
  : list (option Piece) :=
  if (sq <? List.length cs)%nat then firstn sq cs ++ v :: skipn (S sq) cs else cs.

Definition file_char (f : nat) : ascii :=
  nth f ["a"; "b"; "c"; "d"; "e"; "f"; "g"; "h"]%char "h"%char.

Definition rank_char (r : nat) : ascii :=
  nth r ["1"; "2"; "3"; "4"; "5"; "6"; "7"; "8"]%char "8"%char.

Definition name_of (sq : nat) : string :=
  String (file_char (sq mod 8)) (String (rank_char (sq / 8 mod 8)) "").

(** [chess.square_name] *)
Definition square_name (sq : nat) : Py.M string :=
  if (sq <? 64)%nat then Py.ret (name_of sq) else Py.raise Py.IndexError.

(** [chess.parse_square]: the index of the name in [SQUARE_NAMES]. *)
Definition parse_square (s : string) : Py.M nat :=
  match find (fun sq => String.eqb (name_of sq) s) (seq 0 64) with
  | Some sq => Py.ret sq
  | None => Py.raise Py.ValueError
  end.

(** *** Attacks *)

Definition knight_jumps : list (Z * Z) :=
  [(1, 2); (2, 1); (2, -1); (1, -2); (-1, -2); (-2, -1); (-2, 1); (-1, 2)]%Z.

Definition king_steps : list (Z * Z) :=
  [(1, 0); (1, 1); (0, 1); (-1, 1); (-1, 0); (-1, -1); (0, -1); (1, -1)]%Z.

Definition rook_rays : list (Z * Z) := [(1, 0); (0, 1); (-1, 0); (0, -1)]%Z.

Definition bishop_rays : list (Z * Z) := [(1, 1); (-1, 1); (-1, -1); (1, -1)]%Z.

(** White pawns go up the board. *)
Definition forward (c : bool) : Z := if c then 1%Z else (-1)%Z.

(** The first piece met from (f, r) in a direction. *)
Fixpoint first_piece (cs : list (option Piece)) (f r df dr : Z) (fuel : nat)
  : option Piece :=
  match fuel with
  | O => None
  | S fuel' =>
      match sq_at (f + df) (r + dr) with
      | None => None
      | Some t =>
          match piece_on cs t with
          | Some p => Some p
          | None => first_piece cs (f + df) (r + dr) df dr fuel'
          end
      end
  end.

Definition holds (cs : list (option Piece)) (c : bool) (ks : list Kind) (t : option nat)
  : bool :=
  match t with
  | Some t =>
      match piece_on cs t with
      | Some p => Bool.eqb (color p) c && existsb (kind_eqb (kind p)) ks
      | None => false
      end
  | None => false
  end.

(** A piece of colour [c] attacks the square. *)
Definition attacked (cs : list (option Piece)) (c : bool) (sq : nat) : bool :=
  let f := file_of sq in
  let r := rank_of sq in
  existsb (fun d => holds cs c [Knight] (sq_at (f + fst d) (r + snd d))) knight_jumps
  || existsb (fun d => holds cs c [King] (sq_at (f + fst d) (r + snd d))) king_steps
  || holds cs c [Pawn] (sq_at (f - 1) (r - forward c))
  || holds cs c [Pawn] (sq_at (f + 1) (r - forward c))
  || existsb (fun d => match first_piece cs f r (fst d) (snd d) 7 with
                       | Some p => Bool.eqb (color p) c
                                   && (kind_eqb (kind p) Rook || kind_eqb (kind p) Queen)
                       | None => false
                       end) rook_rays
  || existsb (fun d => match first_piece cs f r (fst d) (snd d) 7 with
                       | Some p => Bool.eqb (color p) c
                                   && (kind_eqb (kind p) Bishop || kind_eqb (kind p) Queen)
                       | None => false
                       end) bishop_rays.

Definition king_square (cs : list (option Piece)) (c : bool) : option nat :=
  find (fun sq => holds cs c [King] (Some sq)) (seq 0 64).

Definition in_check (cs : list (option Piece)) (c : bool) : bool :=
  match king_square cs c with
  | Some k => attacked cs (negb c) k
  | None => false
  end.

(** *** Moves *)

(** The squares a sliding piece of colour [c] reaches in one direction. *)
Fixpoint slide (cs : list (option Piece)) (c : bool) (f r df dr : Z) (fuel : nat)
  : list nat :=
  match fuel with
  | O => []
  | S fuel' =>
      match sq_at (f + df) (r + dr) with
      | None => []
      | Some t =>
          match piece_on cs t with
          | Some p => if Bool.eqb (color p) c then [] else [t]
          | None => t :: slide cs c (f + df) (r + dr) df dr fuel'
          end
      end
  end.

Definition hop (cs : list (option Piece)) (c : bool) (f r : Z) (d : Z * Z) : list nat :=
  match sq_at (f + fst d) (r + snd d) with
  | None => []
  | Some t =>
      match piece_on cs t with
      | Some p => if Bool.eqb (color p) c then [] else [t]
      | None => [t]
      end
  end.

Definition empty_at (cs : list (option Piece)) (t : option nat) : bool :=
  match t with
  | Some t => match piece_on cs t with None => true | Some _ => false end
  | None => false
  end.

Definition pawn_targets (pos : Position) (c : bool) (f r : Z) : list nat :=
  let cs := cells pos in
  let one := sq_at f (r + forward c) in
  let two := sq_at f (r + 2 * forward c) in
  let home := if c then 1%Z else 6%Z in
  (if empty_at cs one then
     match one with Some t => [t] | None => [] end
     ++ (if (r =? home)%Z && empty_at cs two
         then match two with Some t => [t] | None => [] end
         else [])
   else [])
  ++ flat_map
       (fun df =>
          match sq_at (f + df) (r + forward c) with
          | None => []
          | Some t =>
              if holds cs (negb c) [Pawn; Knight; Bishop; Rook; Queen; King] (Some t)
                 || option_eqb Nat.eqb (ep_square pos) (Some t)
              then [t] else []
          end)
       [(-1)%Z; 1%Z].

Definition all_free (cs : list (option Piece)) (sqs : list nat) : bool :=
  forallb (fun t => empty_at cs (Some t)) sqs.

Definition none_attacked (cs : list (option Piece)) (c : bool) (sqs : list nat) : bool :=
  forallb (fun t => negb (attacked cs c t)) sqs.

(** Castling: the right is kept, king and rook are at home, the squares
    between are free and the king's path is not attacked. *)
Definition castling_targets (pos : Position) (c : bool) (sq : nat) : list nat :=
  let cs := cells pos in
  let home := if c then 4 else 60 in
  let right_k := if c then castle_K pos else castle_k pos in
  let right_q := if c then castle_Q pos else castle_q pos in
  if (sq =? home)%nat then
    (if right_k && holds cs c [Rook] (Some (home + 3))
        && all_free cs [home + 1; home + 2]
        && none_attacked cs (negb c) [home; home + 1; home + 2]
     then [home + 2] else [])
    ++ (if right_q && holds cs c [Rook] (Some (home - 4))
           && all_free cs [home - 1; home - 2; home - 3]
           && none_attacked cs (negb c) [home; home - 1; home - 2]
        then [home - 2] else [])
  else [].

Definition with_promotions (c : bool) (sq t : nat) : list Move :=
  if (rank_of t =? (if c then 7 else 0))%Z then
    map (fun k => {| from_square := sq; to_square := t; promotion := Some k |})
        [Queen; Rook; Bishop; Knight]
  else [{| from_square := sq; to_square := t; promotion := None |}].

Definition plain (sq t : nat) : Move :=
  {| from_square := sq; to_square := t; promotion := None |}.

(** The moves of the piece on a square, not yet looking at the own king. *)
Definition moves_from (pos : Position) (sq : nat) : list Move :=
  let cs := cells pos in
  let f := file_of sq in
  let r := rank_of sq in
  match piece_on cs sq with
  | None => []
  | Some p =>
      let c := color p in
      if negb (Bool.eqb c (turn pos)) then [] else
      match kind p with
      | Pawn => flat_map (with_promotions c sq) (pawn_targets pos c f r)
      | Knight => map (plain sq) (flat_map (hop cs c f r) knight_jumps)
      | Bishop =>
          map (plain sq) (flat_map (fun d => slide cs c f r (fst d) (snd d) 7) bishop_rays)
      | Rook =>
          map (plain sq) (flat_map (fun d => slide cs c f r (fst d) (snd d) 7) rook_rays)
      | Queen =>
          map (plain sq)
              (flat_map (fun d => slide cs c f r (fst d) (snd d) 7) (rook_rays ++ bishop_rays))
      | King =>
          map (plain sq) (flat_map (hop cs c f r) king_steps ++ castling_targets pos c sq)
      end
  end.

Definition pseudo_legal_moves (pos : Position) : list Move :=
  flat_map (moves_from pos) (seq 0 64).

Definition is_some {A} (o : option A) : bool :=
  match o with Some _ => true | None => false end.

(** The position after a move.  A move that starts at an empty square (the
    null move is one at the start, and the only one the server can push)
    only passes the turn. *)
Definition apply_move (pos : Position) (m : Move) : Position :=
  let cs := cells pos in
  let c := turn pos in
  let src := from_square m in
  let dst := to_square m in
  let next_full := if c then fullmove_number pos else S (fullmove_number pos) in
  match piece_on cs src with
  | None =>
      {| cells := cs; turn := negb c;
         castle_K := castle_K pos; castle_Q := castle_Q pos;
         castle_k := castle_k pos; castle_q := castle_q pos;
         ep_square := None;
         halfmove_clock := S (halfmove_clock pos);
         fullmove_number := next_full |}
  | Some p =>
      let is_pawn := kind_eqb (kind p) Pawn in
      let is_king := kind_eqb (kind p) King in
      let capture := is_some (piece_on cs dst) in
      let en_passant :=
        is_pawn && option_eqb Nat.eqb (ep_square pos) (Some dst) && negb capture in
      let moved := match promotion m with
                   | Some k => {| color := color p; kind := k |}
                   | None => p
                   end in
      let cs1 := put (put cs src None) dst (Some moved) in
      let cs2 := if en_passant
                 then put cs1 (if c then dst - 8 else dst + 8) None
                 else cs1 in
      let cs3 :=
        if is_king && (dst =? src + 2)%nat then
          put (put cs2 (src + 3) None) (src + 1) (Some {| color := color p; kind := Rook |})
        else if is_king && (src =? dst + 2)%nat then
          put (put cs2 (src - 4) None) (src - 1) (Some {| color := color p; kind := Rook |})
        else cs2 in
      let touches (sq : nat) := (src =? sq)%nat || (dst =? sq)%nat in
      {| cells := cs3; turn := negb c;
         castle_K := castle_K pos && negb (touches 7) && negb (is_king && c);
         castle_Q := castle_Q pos && negb (touches 0) && negb (is_king && c);
         castle_k := castle_k pos && negb (touches 63) && negb (is_king && negb c);
         castle_q := castle_q pos && negb (touches 56) && negb (is_king && negb c);
         ep_square :=
           if is_pawn && ((dst =? src + 16)%nat || (src =? dst + 16)%nat)
           then Some (if c then src + 8 else src - 8)
           else None;
         halfmove_clock := if is_pawn || capture then 0 else S (halfmove_clock pos);
         fullmove_number := next_full |}
  end.

Definition on_board (pos : Position) (m : Move) : bool :=
  (from_square m <? 64)%nat && (to_square m <? 64)%nat
  && negb (from_square m =? to_square m)%nat
  && is_some (piece_on (cells pos) (from_square m)).

(** The legal moves: those that leave the own king out of check.  (Every move
    of [pseudo_legal_moves] goes from a piece to another square of the board;
    [on_board] says so in the definition itself.) *)
Definition position_legal_moves (pos : Position) : list Move :=
  filter (fun m => on_board pos m
                   && negb (in_check (cells (apply_move pos m)) (turn pos)))
         (pseudo_legal_moves pos).

(** *** Ends of the game *)

Definition count_where (cs : list (option Piece)) (p : Piece -> bool) : nat :=
  List.length (filter (fun o => match o with Some x => p x | None => false end) cs).

Definition dark (sq : nat) : bool := Z.even (file_of sq + rank_of sq).

(** [has_insufficient_material(color)] *)
Definition insufficient_for (cs : list (option Piece)) (c : bool) : bool :=
  let own (ks : list Kind) :=
    count_where cs (fun p => Bool.eqb (color p) c && existsb (kind_eqb (kind p)) ks) in
  let any (ks : list Kind) := count_where cs (fun p => existsb (kind_eqb (kind p)) ks) in
  if negb (own [Pawn; Rook; Queen] =? 0)%nat then false
  else if negb (own [Knight] =? 0)%nat then
    (own [Pawn; Knight; Bishop; Rook; Queen; King] <=? 2)%nat
    && (count_where cs (fun p => negb (Bool.eqb (color p) c)
                                  && existsb (kind_eqb (kind p)) [Pawn; Knight; Bishop; Rook])
        =? 0)%nat
  else if negb (own [Bishop] =? 0)%nat then
    let bishops_on (d : bool) :=
      List.length (filter (fun sq => holds cs true [Bishop] (Some sq)
                                     || holds cs false [Bishop] (Some sq))
                          (filter (fun sq => Bool.eqb (dark sq) d) (seq 0 64))) in
    ((bishops_on true =? 0)%nat || (bishops_on false =? 0)%nat)
    && (any [Pawn; Knight] =? 0)%nat
  else true.

Definition same_position (a b : Position) : bool :=
  list_eqb (option_eqb piece_eqb) (cells a) (cells b)
  && Bool.eqb (turn a) (turn b)
  && Bool.eqb (castle_K a) (castle_K b) && Bool.eqb (castle_Q a) (castle_Q b)
  && Bool.eqb (castle_k a) (castle_k b) && Bool.eqb (castle_q a) (castle_q b)
  && option_eqb Nat.eqb (ep_square a) (ep_square b).

(** [board.outcome()]: the result once the game is over. *)
Definition outcome (b : Board) : option string :=
  let pos := position b in
  let stuck := match position_legal_moves pos with [] => true | _ => false end in
  if stuck && in_check (cells pos) (turn pos) then
    Some (if turn pos then "0-1" else "1-0")
  else if insufficient_for (cells pos) true && insufficient_for (cells pos) false then
    Some "1/2-1/2"
  else if stuck then Some "1/2-1/2"
  else if (150 <=? halfmove_clock pos)%nat then Some "1/2-1/2"
  else if (5 <=? S (List.length (filter (fun h => same_position (fst h) pos) (history b))))%nat
  then Some "1/2-1/2"
  else None.

(** *** Texts *)

Definition symbol (k : Kind) : ascii :=
  match k with
  | Pawn => "p" | Knight => "n" | Bishop => "b" | Rook => "r" | Queen => "q" | King => "k"
  end%char.

Definition kind_of_symbol (a : ascii) : option Kind :=
  find (fun k => Ascii.eqb (symbol k) a) [Pawn; Knight; Bishop; Rook; Queen; King].

Definition piece_char (p : Piece) : ascii :=
  match color p, kind p with
  | true, Pawn => "P" | true, Knight => "N" | true, Bishop => "B"
  | true, Rook => "R" | true, Queen => "Q" | true, King => "K"
  | false, k => symbol k
  end%char.

(** [move.uci()] *)
Definition uci (m : Move) : string :=
  if is_null m then "0000"
  else (name_of (from_square m) ++ name_of (to_square m)
        ++ match promotion m with
           | Some k => String (symbol k) ""
           | None => ""
           end)%string.

(** [chess.Move.from_uci] *)
Definition from_uci (s : string) : Py.M Move :=
  if String.eqb s "0000" then Py.ret null_move else
  match s with
  | String a (String b (String c (String d rest))) =>
      src <- parse_square (String a (String b "")) ;;
      dst <- parse_square (String c (String d "")) ;;
      promo <- match rest with
               | EmptyString => Py.ret None
               | String p EmptyString =>
                   match kind_of_symbol p with
                   | Some k => Py.ret (Some k)
                   | None => Py.raise Py.ValueError
                   end
               | _ => Py.raise Py.ValueError
               end ;;
      if (src =? dst)%nat then Py.raise Py.ValueError
      else Py.ret {| from_square := src; to_square := dst; promotion := promo |}
  | _ => Py.raise Py.ValueError
  end.

(** One rank of the placement field of a FEN, from file a. *)
Fixpoint rank_fen (row : list (option Piece)) (gap : nat) : string :=
  match row with
  | [] => if (gap =? 0)%nat then "" else Py.decimal gap
  | None :: row' => rank_fen row' (S gap)
  | Some p :: row' =>
      ((if (gap =? 0)%nat then "" else Py.decimal gap)
       ++ String (piece_char p) (rank_fen row' 0))%string
  end.

Definition board_fen (cs : list (option Piece)) : string :=
  String.concat "/"
    (map (fun r => rank_fen (firstn 8 (skipn (r * 8) cs)) 0) [7; 6; 5; 4; 3; 2; 1; 0]).

Definition castling_fen (pos : Position) : string :=
  let s := ((if castle_K pos then "K" else "") ++ (if castle_Q pos then "Q" else "")
            ++ (if castle_k pos then "k" else "") ++ (if castle_q pos then "q" else ""))%string in
  if String.eqb s "" then "-" else s.

(** The en-passant field names the square only when a capture onto it is
    legal. *)
Definition ep_fen (pos : Position) : string :=
  match ep_square pos with
  | Some t =>
      if existsb (fun m => (to_square m =? t)%nat
                           && holds (cells pos) (turn pos) [Pawn] (Some (from_square m)))
                 (position_legal_moves pos)
      then name_of t else "-"
  | None => "-"
  end.

Definition position_fen (pos : Position) : string :=
  (board_fen (cells pos) ++ " " ++ (if turn pos then "w" else "b") ++ " "
   ++ castling_fen pos ++ " " ++ ep_fen pos ++ " "
   ++ Py.decimal (halfmove_clock pos) ++ " " ++ Py.decimal (fullmove_number pos))%string.

(** *** The board object *)

Definition back_rank (c : bool) : list (option Piece) :=
  map (fun k => Some {| color := c; kind := k |})
      [Rook; Knight; Bishop; Queen; King; Bishop; Knight; Rook].

Definition starting_position : Position :=
  {| cells := back_rank true
              ++ repeat (Some {| color := true; kind := Pawn |}) 8
              ++ repeat None 32
              ++ repeat (Some {| color := false; kind := Pawn |}) 8
              ++ back_rank false;
     turn := true;
     castle_K := true; castle_Q := true; castle_k := true; castle_q := true;
     ep_square := None; halfmove_clock := 0; fullmove_number := 1 |}.

Definition Board_new : Board := {| position := starting_position; history := [] |}.

Definition reset (b : Board) : Board := Board_new.

Definition push (b : Board) (m : Move) : Board :=
  {| position := apply_move (position b) m;
     history := (position b, m) :: history b |}.

Definition move_stack (b : Board) : list Move := rev (map snd (history b)).

Definition legal_moves (b : Board) : list Move := position_legal_moves (position b).

Definition legal_moves_contains (b : Board) (m : Move) : bool :=
  existsb (move_eqb m) (legal_moves b).

(** Castling written as king takes rook is read as the king's two-square
    move. *)
Definition as_castling (b : Board) (m : Move) : Move :=
  let cs := cells (position b) in
  let src := from_square m in
  if holds cs true [King] (Some src) || holds cs false [King] (Some src) then
    if ((src =? 4) || (src =? 60))%nat && (to_square m =? src + 3)%nat
    then plain src (src + 2)
    else if ((src =? 4) || (src =? 60))%nat && (src =? to_square m + 4)%nat
    then plain src (src - 2)
    else m
  else m.

(** [board.parse_uci]: the null move, or a legal move; ValueError otherwise. *)
Definition parse_uci (b : Board) (s : string) : Py.M Move :=
  m <- from_uci s ;;
  if is_null m then Py.ret m
  else
    let m := if is_some (promotion m) then m else as_castling b m in
    if legal_moves_contains b m then Py.ret m else Py.raise Py.ValueError.

Definition fen (b : Board) : string := position_fen (position b).

Definition is_game_over (b : Board) : bool := is_some (outcome b).

Definition result (b : Board) : string :=
  match outcome b with
  | Some r => r
  | None => "*"
  end.

Definition is_check (b : Board) : bool := in_check (cells (position b)) (turn (position b)).

Definition piece_at (b : Board) (sq : nat) : option Piece :=
  piece_on (cells (position b)) sq.

(** *** The PGN codec of the model

    The movetext alone, every move in coordinate notation followed by a
    blank; tags, comments and the result are left out of the text, and the
    reader returns a game with the default tags and no comments. *)
Fixpoint movetext (ms : list Move) : string :=
  match ms with
  | [] => ""
  | m :: ms' => (uci m ++ String " " (movetext ms'))%string
  end.

(** The words of a text, each ended by a blank. *)
Fixpoint words (s : string) (word : string) : list string :=
  match s with
  | EmptyString => []
  | String a s' =>
      if Ascii.eqb a " "%char then word :: words s' ""
      else words s' (word ++ String a "")%string
  end.

Fixpoint read_moves (ws : list string) : option (list Move) :=
  match ws with
  | [] => Some []
  | w :: ws' =>
      match from_uci w, read_moves ws' with
      | inr m, Some ms => Some (m :: ms)
      | _, _ => None
      end
  end.

(** *** Sample games *)

Definition e2e4 : Move := plain 12 28.
Definition e7e5 : Move := plain 52 36.

(** 1. e4 e5 2. Qh5 Nc6 3. Bc4 Nf6 4. Qxf7#: White mates. *)
Definition scholars_mate : list Move :=
  [e2e4; e7e5; plain 3 39; plain 57 42; plain 5 26; plain 62 45; plain 39 53].

Definition after (ms : list Move) : Board := fold_left push ms Board_new.

End engine.

(** * Properties *)

(** ** Lists with a last item *)
Section LastItem.
Context {A : Type}.

Lemma item_last_snoc (l : list A) (x : A) : Py.item_last (l ++ [x]) = inr x.
Proof.
  induction l as [|y l IH]; [reflexivity|].
  simpl. destruct (l ++ [x]) eqn:E; [destruct l; discriminate|exact IH].
Qed.

Lemma update_last_snoc (f : A -> A) (l : list A) (x : A) :
  Py.update_last f (l ++ [x]) = inr (l ++ [f x]).
Proof.
  induction l as [|y l IH]; [reflexivity|].
  simpl. destruct (l ++ [x]) eqn:E; [destruct l; discriminate|].
  rewrite IH. reflexivity.
Qed.

End LastItem.

(** ** The handlers, for any library that keeps the contract *)
Section Server.
Context `{L : chess.Lib} `{C : @chess.pgn.Codec L}.

Definition move_text (rq : app.Request) : string :=
  app.form_get (app.form rq) "move" "".

Definition square_text (rq : app.Request) : string :=
  app.form_get (app.form rq) "square" "".

(** The owner list is index-aligned with the move stack. *)
Definition owners_aligned (st : app.App) : Prop :=
  List.length (app.move_owners st) = List.length (chess.move_stack (app.board st)).

Definition current_orientation (st : app.App) : string :=
  helper.get_orientation (app.manager st).

Definition rows (st : app.App) : list helper.MoveRow :=
  helper.get_moves_list (app.tracker st).


(** The board and the owner list a move attempt leaves: both as before, or
    both one longer, by a move the board parsed and holds legal. *)
Lemma make_move_pushes (st : app.App) (rq : app.Request) :
  (app.board (app.state (app.make_move st rq)) = app.board st /\
   app.move_owners (app.state (app.make_move st rq)) = app.move_owners st) \/
  (exists m name,
     chess.parse_uci (app.board st) (move_text rq) = inr m /\
     chess.legal_moves_contains (app.board st) m = true /\
     app.board (app.state (app.make_move st rq)) = chess.push (app.board st) m /\
     app.move_owners (app.state (app.make_move st rq)) = app.move_owners st ++ [name]).
Proof.
  unfold app.make_move. fold (move_text rq).
  destruct (chess.parse_uci _ _) as [[|]|m] eqn:Hparse; simpl; auto.
  destruct (chess.legal_moves_contains _ m) eqn:Hlegal; simpl; auto.
  destruct (helper.update_moves_list _ _ _ _) as [tr' [e|u]]; simpl; right;
    exists m; eauto.
Qed.

Lemma index_reads (st : app.App) (rq : app.Request) :
  app.state (app.index st rq) = st /\
  exists resp, app.outcome (app.index st rq) = inr resp.
Proof.
  unfold app.index.
  destruct (String.eqb (app.method rq) "GET");
    [destruct (app.username_cookie rq) as [[|c s]|]; simpl; eauto|].
  destruct (String.eqb (app.method rq) "POST"); [|simpl; eauto].
  destruct (app.form_lookup _ _) as [[|c s]|]; simpl; eauto.
Qed.

Lemma owners_aligned_handle (st : app.App) (req : app.Route * app.Request) :
  owners_aligned st -> owners_aligned (app.state (app.handle st req)).
Proof.
  unfold owners_aligned. intros H. destruct req as [[| | | |] rq]; unfold app.handle; simpl.
  - unfold app.legal_moves.
    destruct (chess.parse_square _) as [[|]|sq]; simpl; exact H.
  - destruct (make_move_pushes st rq) as [[Hb Ho]|(m & name & Hparse & _ & Hb & Ho)];
      rewrite Hb, Ho; [exact H|].
    rewrite (chess.move_stack_push _ _ _ Hparse), !length_app, H. reflexivity.
  - exact H.
  - rewrite chess.reset_new, chess.move_stack_new. reflexivity.
  - now rewrite (proj1 (index_reads st rq)).
Qed.

(** C2: the owner list is as long as the board's move stack, at the start and
    after every request served: the equality holds initially, every handler
    (a move attempt that succeeds, fails or raises, and reset) keeps it, and
    so it holds after any sequence of requests. *)
Theorem owners_aligned_always :
  owners_aligned app.App_init /\
  (forall st req, owners_aligned st -> owners_aligned (app.state (app.handle st req))) /\
  (forall reqs, owners_aligned (app.serve app.App_init reqs)).
Proof.
  assert (H0 : owners_aligned app.App_init).
  { unfold owners_aligned. simpl. now rewrite chess.move_stack_new. }
  split; [exact H0|]. split; [apply owners_aligned_handle|].
  intros reqs. unfold app.serve.
  generalize dependent app.App_init.
  induction reqs as [|req reqs IH]; intros st Hst; simpl; [exact Hst|].
  apply IH, owners_aligned_handle, Hst.
Qed.

(** C5: reset, in any state, leaves the starting board (with its empty move
    stack), an empty owner list, no rows and the orientation white. *)
Theorem reset_restores (st : app.App) (rq : app.Request) :
  app.board (app.state (app.reset st rq)) = chess.Board_new /\
  chess.move_stack (app.board (app.state (app.reset st rq))) = [] /\
  app.move_owners (app.state (app.reset st rq)) = [] /\
  rows (app.state (app.reset st rq)) = [] /\
  current_orientation (app.state (app.reset st rq)) = "white" /\
  app.state (app.reset st rq) = app.App_init.
Proof.
  unfold app.reset, rows, current_orientation, app.App_init. simpl.
  rewrite chess.reset_new, chess.move_stack_new. repeat split; reflexivity.
Qed.

(** C7: the status text.  When the game is over it is one of four fixed
    texts, chosen by the result; otherwise it names the side to move and says
    whether that side is in check. *)
Theorem status_text_cases (b : chess.Board) :
  (chess.is_game_over b = true ->
     (chess.result b = "1-0" -> helper.status_text b = "Checkmate! White wins!") /\
     (chess.result b = "0-1" -> helper.status_text b = "Checkmate! Black wins!") /\
     (chess.result b = "1/2-1/2" -> helper.status_text b = "Game over. Draw!") /\
     (chess.result b <> "1-0" -> chess.result b <> "0-1" ->
      chess.result b <> "1/2-1/2" -> helper.status_text b = "Game over.") /\
     In (helper.status_text b)
        ["Checkmate! White wins!"; "Checkmate! Black wins!"; "Game over. Draw!";
         "Game over."]) /\
  (chess.is_game_over b = false ->
     let side := if chess.turn b then "White" else "Black" in
     (chess.is_check b = false -> helper.status_text b = (side ++ " to move.")%string) /\
     (chess.is_check b = true ->
      helper.status_text b = (side ++ " to move, and they're in check!")%string)) /\
  (chess.is_game_over b = false -> chess.is_check b = false -> chess.turn b = true ->
     helper.status_text b = "White to move.").
Proof.
  unfold helper.status_text, chess.WHITE.
  split; [|split].
  - intros ->. repeat split.
    + intros ->. reflexivity.
    + intros ->. reflexivity.
    + intros ->. reflexivity.
    + intros H1 H2 H3.
      apply String.eqb_neq in H1, H2, H3. now rewrite H1, H2, H3.
    + destruct (String.eqb _ "1-0"); [simpl; auto|].
      destruct (String.eqb _ "0-1"); [simpl; auto|].
      destruct (String.eqb _ "1/2-1/2"); simpl; auto.
  - intros ->. destruct (chess.turn b); simpl; split; intros ->; reflexivity.
  - intros -> -> ->. reflexivity.
Qed.

(** *** Orientation *)

Definition parity_orientation (n : nat) : string :=
  if Nat.even n then "white" else "black".

Lemma make_move_manager (st : app.App) (rq : app.Request) :
  app.manager (app.state (app.make_move st rq)) =
  if app.succeeded (app.make_move st rq)
  then helper.toggle_orientation (app.manager st)
  else app.manager st.
Proof.
  unfold app.make_move, app.succeeded.
  destruct (chess.parse_uci _ _) as [[|]|m]; simpl; auto.
  destruct (chess.legal_moves_contains _ m); simpl; auto.
  destruct (helper.update_moves_list _ _ _ _) as [tr' [e|u]]; simpl; reflexivity.
Qed.

Lemma legal_moves_state (st : app.App) (rq : app.Request) :
  app.state (app.legal_moves st rq) = st.
Proof.
  unfold app.legal_moves.
  destruct (chess.parse_square _) as [[|]|sq]; reflexivity.
Qed.

Lemma toggle_parity (mgr : helper.OrientationManager) (n : nat) :
  helper.get_orientation mgr = parity_orientation n ->
  helper.get_orientation (helper.toggle_orientation mgr) = parity_orientation (S n).
Proof.
  unfold helper.get_orientation, helper.toggle_orientation.
  cbn [helper.orientation]. intros ->. unfold parity_orientation.
  rewrite Nat.even_succ, <- Nat.negb_even.
  destruct (Nat.even n); reflexivity.
Qed.

Lemma count_step_serve (reqs : list (app.Route * app.Request)) (st : app.App) (n : nat) :
  fst (fold_left app.count_step reqs (st, n)) = app.serve st reqs.
Proof.
  revert st n. induction reqs as [|req reqs IH]; intros st n; [reflexivity|].
  simpl. unfold app.serve in IH. apply IH.
Qed.

Lemma count_step_parity (reqs : list (app.Route * app.Request)) (st : app.App) (n : nat) :
  current_orientation st = parity_orientation n ->
  current_orientation (fst (fold_left app.count_step reqs (st, n))) =
  parity_orientation (snd (fold_left app.count_step reqs (st, n))).
Proof.
  revert st n. induction reqs as [|[route rq] reqs IH]; intros st n Hst; [exact Hst|].
  simpl. apply IH. unfold current_orientation in *.
  destruct route; unfold app.handle; simpl.
  - now rewrite legal_moves_state.
  - rewrite make_move_manager.
    destruct (app.succeeded _); [now apply toggle_parity|exact Hst].
  - exact Hst.
  - reflexivity.
  - now rewrite (proj1 (index_reads st rq)).
Qed.

(** C4: the orientation is white at the start; a move attempt toggles it when
    it succeeds and leaves it alone when it does not; the read-only handlers
    leave it alone and reset sets it to white.  So after any sequence of
    requests it is one of "white" and "black": white exactly when the number
    of successful moves since the last reset is even, black when it is odd. *)
Theorem orientation_alternates :
  current_orientation app.App_init = "white" /\
  (forall st rq,
     app.manager (app.state (app.make_move st rq)) =
     if app.succeeded (app.make_move st rq)
     then helper.toggle_orientation (app.manager st)
     else app.manager st) /\
  (forall st rq, current_orientation (app.state (app.legal_moves st rq)) = current_orientation st) /\
  (forall st rq, current_orientation (app.state (app.game_status st rq)) = current_orientation st) /\
  (forall st rq, current_orientation (app.state (app.index st rq)) = current_orientation st) /\
  (forall st rq, current_orientation (app.state (app.reset st rq)) = "white") /\
  (forall reqs,
     current_orientation (app.serve app.App_init reqs) =
     (if Nat.even (app.moves_since_reset reqs) then "white" else "black") /\
     (current_orientation (app.serve app.App_init reqs) = "white" <->
      Nat.even (app.moves_since_reset reqs) = true)).
Proof.
  split; [reflexivity|]. split; [apply make_move_manager|].
  split; [intros; now rewrite legal_moves_state|].
  split; [reflexivity|].
  split; [intros; now rewrite (proj1 (index_reads st rq))|].
  split; [reflexivity|].
  intros reqs.
  assert (H : current_orientation (app.serve app.App_init reqs) =
              parity_orientation (app.moves_since_reset reqs)).
  { unfold app.moves_since_reset.
    rewrite <- (count_step_serve reqs app.App_init 0).
    now apply count_step_parity. }
  split; [exact H|]. rewrite H. unfold parity_orientation.
  destruct (Nat.even _); split; intros E; try reflexivity; discriminate.
Qed.

(** *** Legal destinations *)

Definition starts_at (from_sq : nat) (m : chess.Move) : bool :=
  (chess.from_square m =? from_sq)%nat.

(** [dests] are the names of the destination squares of [ms], in order. *)
Definition destinations_of (ms : list chess.Move) (dests : list string) : Prop :=
  Forall2 (fun m d => chess.square_name (chess.to_square m) = inr d) ms dests.

Lemma legal_moves_loop (from_sq : nat) (ms : list chess.Move) (acc : list string) :
  (forall m, In m ms -> chess.to_square m < 64) ->
  exists dests,
    fold_left
      (fun (acc : Py.M (list string)) (m : chess.Move) =>
         possible_moves <- acc ;;
         if (chess.from_square m =? from_sq)%nat then
           name <- chess.square_name (chess.to_square m) ;;
           Py.ret (possible_moves ++ [name])
         else Py.ret possible_moves)
      ms (Py.ret acc) = inr (acc ++ dests) /\
    destinations_of (filter (starts_at from_sq) ms) dests.
Proof.
  revert acc. induction ms as [|m ms IH]; intros acc Hvalid.
  - exists []. split; [simpl; now rewrite app_nil_r|constructor].
  - simpl. unfold starts_at at 1.
    destruct (chess.from_square m =? from_sq)%nat eqn:E.
    + destruct (chess.square_name_valid (chess.to_square m)) as [d Hd];
        [apply Hvalid; now left|].
      destruct (IH (acc ++ [d])) as (dests & Hfold & Hdests);
        [intros; apply Hvalid; now right|].
      exists (d :: dests). split.
      * rewrite Hd. cbn [Py.bind]. fold (@Py.ret (list string) (acc ++ [d])).
        rewrite Hfold, <- app_assoc. reflexivity.
      * constructor; assumption.
    + destruct (IH acc) as (dests & Hfold & Hdests);
        [intros; apply Hvalid; now right|].
      exists dests. split; assumption.
Qed.

Lemma legal_moves_returns (st : app.App) (rq : app.Request) :
  exists dests, app.outcome (app.legal_moves st rq) = inr (app.Json_moves dests).
Proof.
  unfold app.legal_moves.
  destruct (chess.parse_square _) as [e|from_sq] eqn:Hparse.
  - rewrite (chess.parse_square_raises _ _ Hparse). simpl. eauto.
  - destruct (legal_moves_loop from_sq (chess.legal_moves (app.board st)) [])
      as (dests & Hfold & _).
    { intros m Hm. now apply (chess.legal_moves_valid (app.board st)). }
    exists dests. unfold Py.ret in *. simpl. rewrite Hfold. reflexivity.
Qed.

(** C6: the query for legal destinations always answers with a list and
    changes nothing.  The list is empty when the square text does not parse,
    when the square holds no piece and when no legal move starts there;
    otherwise it names, in order, the destination of every legal move that
    starts at the square. *)
Theorem legal_moves_answers (st : app.App) (rq : app.Request) :
  exists dests,
    app.outcome (app.legal_moves st rq) = inr (app.Json_moves dests) /\
    app.state (app.legal_moves st rq) = st /\
    (forall e, chess.parse_square (square_text rq) = inl e -> dests = []) /\
    (forall from_sq, chess.parse_square (square_text rq) = inr from_sq ->
       destinations_of
         (filter (starts_at from_sq) (chess.legal_moves (app.board st))) dests /\
       (chess.piece_at (app.board st) from_sq = None -> dests = []) /\
       ((forall m, In m (chess.legal_moves (app.board st)) ->
                   chess.from_square m <> from_sq) -> dests = [])).
Proof.
  unfold app.legal_moves, square_text.
  destruct (chess.parse_square _) as [e|from_sq] eqn:Hparse.
  - rewrite (chess.parse_square_raises _ _ Hparse). exists []. simpl.
    repeat split; intros; try reflexivity; discriminate.
  - destruct (legal_moves_loop from_sq (chess.legal_moves (app.board st)) [])
      as (dests & Hfold & Hdests).
    { intros m Hm. now apply (chess.legal_moves_valid (app.board st)). }
    exists dests. unfold Py.ret in *. simpl. rewrite Hfold. simpl.
    split; [reflexivity|]. split; [reflexivity|].
    split; [intros; discriminate|].
    intros sq' Hsq. injection Hsq as <-.
    assert (Hnone : filter (starts_at from_sq) (chess.legal_moves (app.board st)) = [] ->
                    dests = []).
    { intros Hf. rewrite Hf in Hdests. now inversion Hdests. }
    split; [exact Hdests|]. split.
    + intros Hempty. apply Hnone.
      destruct (filter _ _) as [|m ms] eqn:Hf; [reflexivity|exfalso].
      assert (Hin : In m (filter (starts_at from_sq) (chess.legal_moves (app.board st))))
        by (rewrite Hf; now left).
      apply filter_In in Hin. destruct Hin as [Hin Hstart].
      apply Nat.eqb_eq in Hstart.
      apply chess.legal_moves_valid in Hin. destruct Hin as (_ & _ & Hpiece).
      apply Hpiece. now rewrite Hstart.
    + intros Hnomove. apply Hnone.
      destruct (filter _ _) as [|m ms] eqn:Hf; [reflexivity|exfalso].
      assert (Hin : In m (filter (starts_at from_sq) (chess.legal_moves (app.board st))))
        by (rewrite Hf; now left).
      apply filter_In in Hin. destruct Hin as [Hin Hstart].
      apply Nat.eqb_eq in Hstart. exact (Hnomove m Hin Hstart).
Qed.

(** *** Move rows *)

(** A row is open while both Black fields still hold the sentinel. *)
Definition row_open (r : helper.MoveRow) : bool :=
  String.eqb (helper.Black_Move r) "waiting" && String.eqb (helper.Black_User r) "waiting".

(** The Black move of the row is still to come. *)
Definition black_pending (r : helper.MoveRow) : bool :=
  String.eqb (helper.Black_Move r) "waiting".

Definition all_closed (rs : list helper.MoveRow) : Prop :=
  Forall (fun r => black_pending r = false) rs.

(** Any open row is the last one (so there is at most one). *)
Definition open_only_last (rs : list helper.MoveRow) : Prop :=
  forall i r, nth_error rs i = Some r -> row_open r = true -> S i = List.length rs.

(** The rows go with the orientation: with white to be recorded next every
    row is complete, with black the last row is the one open row. *)
Inductive rows_paired : string -> list helper.MoveRow -> Prop :=
| paired_white rs : all_closed rs -> rows_paired "white" rs
| paired_black rs r :
    all_closed rs -> row_open r = true -> rows_paired "black" (rs ++ [r]).

Definition paired (st : app.App) : Prop :=
  rows_paired (current_orientation st) (rows st).

Lemma uci_not_waiting (m : chess.Move) : chess.uci m <> "waiting".
Proof.
  intros E. pose proof (chess.uci_length m) as H. rewrite E in H. simpl in H. lia.
Qed.

(** Under the pairing a row whose Black move is pending is the last row, and
    both its Black fields hold the sentinel. *)
Lemma rows_paired_pending (o : string) (rs : list helper.MoveRow) :
  rows_paired o rs ->
  forall i r, nth_error rs i = Some r -> black_pending r = true ->
              S i = List.length rs /\ row_open r = true.
Proof.
  intros [rs' Hclosed|rs' r' Hclosed Hopen] i r Hnth Hr.
  - apply nth_error_In in Hnth.
    unfold all_closed in Hclosed. rewrite Forall_forall in Hclosed.
    rewrite (Hclosed r Hnth) in Hr. discriminate.
  - rewrite length_app. simpl.
    destruct (Nat.lt_ge_cases i (List.length rs')) as [Hlt|Hge].
    + rewrite nth_error_app1 in Hnth by exact Hlt.
      apply nth_error_In in Hnth.
      unfold all_closed in Hclosed. rewrite Forall_forall in Hclosed.
      rewrite (Hclosed r Hnth) in Hr. discriminate.
    + assert (Hi : i < List.length (rs' ++ [r'])).
      { apply nth_error_Some. now rewrite Hnth. }
      rewrite length_app in Hi. simpl in Hi.
      assert (i = List.length rs') by lia. subst i.
      rewrite nth_error_app2, Nat.sub_diag in Hnth by lia.
      injection Hnth as <-. split; [lia|exact Hopen].
Qed.

Lemma row_open_pending (r : helper.MoveRow) : row_open r = true -> black_pending r = true.
Proof. unfold row_open, black_pending. intros H. now apply andb_prop in H. Qed.

Lemma rows_paired_open_only_last (o : string) (rs : list helper.MoveRow) :
  rows_paired o rs -> open_only_last rs.
Proof.
  intros Hp i r Hnth Hr.
  exact (proj1 (rows_paired_pending o rs Hp i r Hnth (row_open_pending r Hr))).
Qed.

(** The state a successful move attempt leaves and its answer, written out. *)
Definition moved (st : app.App) (rq : app.Request) (m : chess.Move)
    (rows1 : list helper.MoveRow) : app.Handled :=
  let board1 := chess.push (app.board st) m in
  let owners1 := app.move_owners st ++ [Py.or_default (app.username_cookie rq) "Anonymous"] in
  let manager1 := helper.toggle_orientation (app.manager st) in
  {| app.state := {| app.board := board1; app.move_owners := owners1;
                     app.manager := manager1;
                     app.tracker := {| helper.moves_list := rows1 |} |};
     app.emitted :=
       [{| app.bu_fen := chess.fen board1;
           app.bu_pgn := helper.current_pgn board1 owners1 (app.now rq);
           app.bu_statusText := helper.status_text board1;
           app.bu_orientation := helper.get_orientation manager1;
           app.bu_moves := Some rows1 |}];
     app.outcome := inr (app.Json_ok (chess.fen board1) (helper.get_orientation manager1) rows1) |}.

(** A white half-move opens a new row. *)
Lemma make_move_white (st : app.App) (rq : app.Request) (m : chess.Move) :
  chess.parse_uci (app.board st) (move_text rq) = inr m ->
  chess.legal_moves_contains (app.board st) m = true ->
  current_orientation st = "white" ->
  app.make_move st rq =
  moved st rq m
    (rows st ++
     [{| helper.Move_no := List.length (rows st) * 2 / 2 + 1;
         helper.White_Move := chess.uci m;
         helper.White_User := Py.or_default (app.username_cookie rq) "Anonymous";
         helper.Black_Move := "waiting";
         helper.Black_User := "waiting" |}]).
Proof.
  intros Hparse Hlegal Ho. pose proof Hparse as H0.
  unfold app.make_move, move_text, current_orientation, rows in *.
  rewrite Hparse, Hlegal. unfold helper.update_moves_list.
  rewrite Ho, (chess.move_stack_push _ _ _ H0), !item_last_snoc. reflexivity.
Qed.

(** A black half-move fills the Black fields of the last row. *)
Lemma make_move_black (st : app.App) (rq : app.Request) (m : chess.Move)
    (rs : list helper.MoveRow) (r : helper.MoveRow) :
  chess.parse_uci (app.board st) (move_text rq) = inr m ->
  chess.legal_moves_contains (app.board st) m = true ->
  String.eqb (current_orientation st) "white" = false ->
  rows st = rs ++ [r] ->
  app.make_move st rq =
  moved st rq m
    (rs ++ [helper.set_Black_User (Py.or_default (app.username_cookie rq) "Anonymous")
              (helper.set_Black_Move (chess.uci m) r)]).
Proof.
  intros Hparse Hlegal Ho Hrows. pose proof Hparse as H0.
  unfold app.make_move, move_text, current_orientation, rows in *.
  rewrite Hparse, Hlegal. unfold helper.update_moves_list.
  unfold helper.get_moves_list in Hrows.
  rewrite Ho, Hrows, (chess.move_stack_push _ _ _ H0), !item_last_snoc.
  cbn [Py.bind]. rewrite update_last_snoc. cbn [Py.bind].
  rewrite update_last_snoc. reflexivity.
Qed.

(** A move attempt in a paired state: it is answered, and pairing holds on. *)
Lemma make_move_paired (st : app.App) (rq : app.Request) :
  paired st ->
  paired (app.state (app.make_move st rq)) /\
  exists resp, app.outcome (app.make_move st rq) = inr resp.
Proof.
  intros Hp.
  destruct (chess.parse_uci (app.board st) (move_text rq)) as [e|m] eqn:Hparse.
  { unfold app.make_move. fold (move_text rq). rewrite Hparse.
    rewrite (chess.parse_uci_raises _ _ _ Hparse). simpl. eauto. }
  destruct (chess.legal_moves_contains (app.board st) m) eqn:Hlegal.
  2:{ unfold app.make_move. fold (move_text rq). rewrite Hparse, Hlegal.
      simpl. eauto. }
  unfold paired in *.
  remember (current_orientation st) as o eqn:Ho.
  remember (rows st) as rws eqn:Hrows.
  destruct Hp as [rs Hclosed|rs r Hclosed Hopen].
  - rewrite (make_move_white st rq m Hparse Hlegal (eq_sym Ho)).
    split; [|simpl; eauto].
    unfold moved, current_orientation, rows, helper.get_orientation,
      helper.toggle_orientation in *. cbn [app.state app.manager app.tracker
      helper.orientation helper.get_moves_list helper.moves_list].
    rewrite <- Ho. cbn [String.eqb Ascii.eqb Bool.eqb].
    apply paired_black; [rewrite <- Hrows; exact Hclosed|reflexivity].
  - assert (Ho' : String.eqb (current_orientation st) "white" = false)
      by now rewrite <- Ho.
    rewrite (make_move_black st rq m rs r Hparse Hlegal Ho' (eq_sym Hrows)).
    split; [|simpl; eauto].
    unfold moved, current_orientation, rows, helper.get_orientation,
      helper.toggle_orientation in *. cbn [app.state app.manager app.tracker
      helper.orientation helper.get_moves_list helper.moves_list].
    rewrite <- Ho. cbn [String.eqb Ascii.eqb Bool.eqb].
    apply paired_white. apply Forall_app. split; [exact Hclosed|].
    constructor; [|constructor].
    unfold black_pending. simpl.
    destruct (String.eqb_spec (chess.uci m) "waiting") as [E|_];
      [now apply uci_not_waiting in E|reflexivity].
Qed.

Lemma handle_paired (st : app.App) (req : app.Route * app.Request) :
  paired st ->
  paired (app.state (app.handle st req)) /\
  exists resp, app.outcome (app.handle st req) = inr resp.
Proof.
  intros Hp. destruct req as [[| | | |] rq]; unfold app.handle; simpl.
  - rewrite legal_moves_state. split; [exact Hp|].
    destruct (legal_moves_returns st rq) as (dests & Hout). eauto.
  - now apply make_move_paired.
  - eauto.
  - split; [|eauto]. apply paired_white. constructor.
  - destruct (index_reads st rq) as [-> Hresp]. auto.
Qed.

Lemma serve_paired (reqs : list (app.Route * app.Request)) (st : app.App) :
  paired st -> paired (app.serve st reqs).
Proof.
  revert st. induction reqs as [|req reqs IH]; intros st Hp; [exact Hp|].
  simpl. apply IH. now apply handle_paired.
Qed.

Lemma init_paired : paired app.App_init.
Proof. apply paired_white. constructor. Qed.

(** C9: at most one row is open and an open row is the last one.  Pairing of
    rows and orientation holds at the start and every handler keeps it
    (recording a white half-move, recording a black half-move, reset, the
    read-only queries); under it any open row is the last row, so after any
    sequence of requests two open rows are the same row.  A row whose Black
    move alone reads "waiting" is that open last row too. *)
Theorem open_row_is_last :
  paired app.App_init /\
  (forall st req, paired st -> paired (app.state (app.handle st req))) /\
  (forall st, paired st -> open_only_last (rows st)) /\
  (forall reqs, open_only_last (rows (app.serve app.App_init reqs))) /\
  (forall reqs i j ri rj,
     nth_error (rows (app.serve app.App_init reqs)) i = Some ri -> row_open ri = true ->
     nth_error (rows (app.serve app.App_init reqs)) j = Some rj -> row_open rj = true ->
     i = j) /\
  (forall reqs i r,
     nth_error (rows (app.serve app.App_init reqs)) i = Some r ->
     helper.Black_Move r = "waiting" ->
     S i = List.length (rows (app.serve app.App_init reqs)) /\ row_open r = true).
Proof.
  assert (Hlast : forall reqs, open_only_last (rows (app.serve app.App_init reqs))).
  { intros reqs. apply (rows_paired_open_only_last _ _ (serve_paired reqs _ init_paired)). }
  split; [exact init_paired|].
  split; [intros st req Hp; now apply handle_paired|].
  split; [intros st Hp; exact (rows_paired_open_only_last _ _ Hp)|].
  split; [exact Hlast|]. split.
  - intros reqs i j ri rj Hi Hri Hj Hrj.
    pose proof (Hlast reqs i ri Hi Hri). pose proof (Hlast reqs j rj Hj Hrj). lia.
  - intros reqs i r Hnth Hr.
    apply (rows_paired_pending _ _ (serve_paired reqs _ init_paired) i r Hnth).
    unfold black_pending. rewrite Hr. reflexivity.
Qed.

(** C10: after any sequence of requests no handler lets an exception escape;
    and when a legal move is attempted while the orientation is black, the
    row list is not empty and its last row is open, the tracker's update
    returns with that row filled in, and the attempt is answered "ok". *)
Theorem black_move_fills_last_row (reqs : list (app.Route * app.Request)) :
  let st := app.serve app.App_init reqs in
  (forall req, exists resp, app.outcome (app.handle st req) = inr resp) /\
  (forall rq m,
     chess.parse_uci (app.board st) (move_text rq) = inr m ->
     chess.legal_moves_contains (app.board st) m = true ->
     current_orientation st = "black" ->
     exists rs r,
       rows st = rs ++ [r] /\ row_open r = true /\
       let name := Py.or_default (app.username_cookie rq) "Anonymous" in
       let filled := helper.set_Black_User name (helper.set_Black_Move (chess.uci m) r) in
       helper.update_moves_list (app.tracker st) (chess.push (app.board st) m)
         (app.move_owners st ++ [name]) (current_orientation st) =
       ({| helper.moves_list := rs ++ [filled] |}, inr tt) /\
       app.make_move st rq = moved st rq m (rs ++ [filled])).
Proof.
  intros st.
  assert (Hp : paired st) by (apply serve_paired, init_paired).
  split; [intros req; now apply handle_paired|].
  intros rq m Hparse Hlegal Ho.
  unfold paired in Hp. rewrite Ho in Hp.
  inversion Hp as [|rs r Hclosed Hopen Hw Hrows].
  exists rs, r. split; [reflexivity|]. split; [exact Hopen|].
  cbv zeta. split.
  - unfold helper.update_moves_list, rows, helper.get_moves_list in *.
    rewrite Ho, <- Hrows, (chess.move_stack_push _ _ _ Hparse), !item_last_snoc.
    cbn [String.eqb Ascii.eqb Bool.eqb Py.bind].
    rewrite update_last_snoc. cbn [Py.bind].
    rewrite update_last_snoc. reflexivity.
  - apply make_move_black; auto. now rewrite Ho.
Qed.

(** A move request as the browser posts it. *)
Definition post_move (text name : string) (date : Py.date) : app.Request :=
  {| app.method := "POST"; app.form := [("move", text)];
     app.username_cookie := Some name; app.now := date |}.

Definition move_row (n : nat) (wm wu bm bu : string) : helper.MoveRow :=
  {| helper.Move_no := n; helper.White_Move := wm; helper.White_User := wu;
     helper.Black_Move := bm; helper.Black_User := bu |}.

(** C3: from the starting state, "e2e4" posted by Alice and accepted is
    answered ok with orientation black and the one row
    (1, e2e4, Alice, waiting, waiting); "e7e5" posted by Bob and accepted next
    is answered ok with orientation white and that row completed to
    (1, e2e4, Alice, e7e5, Bob). *)
Theorem alice_then_bob (m1 m2 : chess.Move) (d1 d2 : Py.date) :
  let b1 := chess.push chess.Board_new m1 in
  let b2 := chess.push b1 m2 in
  chess.parse_uci chess.Board_new "e2e4" = inr m1 ->
  chess.legal_moves_contains chess.Board_new m1 = true ->
  chess.uci m1 = "e2e4" ->
  chess.parse_uci b1 "e7e5" = inr m2 ->
  chess.legal_moves_contains b1 m2 = true ->
  chess.uci m2 = "e7e5" ->
  let h1 := app.make_move app.App_init (post_move "e2e4" "Alice" d1) in
  let h2 := app.make_move (app.state h1) (post_move "e7e5" "Bob" d2) in
  app.outcome h1 =
    inr (app.Json_ok (chess.fen b1) "black"
           [move_row 1 "e2e4" "Alice" "waiting" "waiting"]) /\
  app.outcome h2 =
    inr (app.Json_ok (chess.fen b2) "white"
           [move_row 1 "e2e4" "Alice" "e7e5" "Bob"]).
Proof.
  intros b1 b2 Hp1 Hl1 Hu1 Hp2 Hl2 Hu2 h1 h2.
  assert (E1 : h1 = moved app.App_init (post_move "e2e4" "Alice" d1) m1
                     [move_row 1 "e2e4" "Alice" "waiting" "waiting"]).
  { unfold h1.
    rewrite (make_move_white app.App_init (post_move "e2e4" "Alice" d1) m1 Hp1 Hl1 eq_refl).
    simpl. rewrite Hu1. reflexivity. }
  split; [rewrite E1; reflexivity|].
  unfold h2. rewrite E1.
  rewrite (make_move_black
             (app.state (moved app.App_init (post_move "e2e4" "Alice" d1) m1
                           [move_row 1 "e2e4" "Alice" "waiting" "waiting"]))
             (post_move "e7e5" "Bob" d2) m2 []
             (move_row 1 "e2e4" "Alice" "waiting" "waiting") Hp2 Hl2 eq_refl eq_refl).
  simpl. unfold helper.set_Black_User, helper.set_Black_Move. simpl.
  rewrite Hu2. reflexivity.
Qed.

(** *** Rejected text, and the rows as a function of the game *)

(** A move text the library does not parse is answered with the error
    "Invalid move syntax."; nothing is emitted and the globals stay. *)
Theorem make_move_invalid_syntax (st : app.App) (rq : app.Request) (e : Py.exn) :
  chess.parse_uci (app.board st) (move_text rq) = inl e ->
  app.outcome (app.make_move st rq) = inr (app.Json_error "Invalid move syntax.") /\
  app.emitted (app.make_move st rq) = [] /\
  app.state (app.make_move st rq) = st.
Proof.
  intros Hparse. unfold app.make_move. fold (move_text rq). rewrite Hparse.
  rewrite (chess.parse_uci_raises _ _ _ Hparse). simpl. auto.
Qed.

(** The rows of a game: its half-moves (text and owner) taken two by two,
    numbered from [n]; a last half-move without its reply leaves the row
    open. *)
Fixpoint rows_of (n : nat) (plies : list (string * string)) : list helper.MoveRow :=
  match plies with
  | [] => []
  | [(wm, wu)] => [move_row n wm wu "waiting" "waiting"]
  | (wm, wu) :: (bm, bu) :: plies' => move_row n wm wu bm bu :: rows_of (S n) plies'
  end.

Definition plies (st : app.App) : list (string * string) :=
  combine (map chess.uci (chess.move_stack (app.board st))) (app.move_owners st).

(** The rows are the rows of the game played so far, and the orientation
    tells whether its number of half-moves is even. *)
Definition rows_current (st : app.App) : Prop :=
  owners_aligned st /\
  rows st = rows_of 1 (plies st) /\
  current_orientation st =
    parity_orientation (List.length (chess.move_stack (app.board st))).

Lemma pairs_ind {A} (P : list A -> Prop) :
  P [] -> (forall x, P [x]) -> (forall x y l, P l -> P (x :: y :: l)) ->
  forall l, P l.
Proof.
  intros H0 H1 H2.
  assert (H : forall l, P l /\ forall x, P (x :: l)).
  { induction l as [|y l [IH IHx]]; [split; auto|]. split; [apply IHx|].
    intros x. apply H2, IH. }
  intros l. apply H.
Qed.

Lemma rows_of_even (l : list (string * string)) :
  forall n m u, Nat.even (List.length l) = true ->
  rows_of n (l ++ [(m, u)]) =
  rows_of n l ++ [move_row (n + List.length (rows_of n l)) m u "waiting" "waiting"].
Proof.
  induction l as [| [wm wu] | [wm wu] [bm bu] l IH] using pairs_ind; intros n m u He.
  - simpl. now rewrite Nat.add_0_r.
  - discriminate.
  - cbn [app rows_of List.length]. rewrite (IH (S n) m u He).
    cbn [app]. now rewrite Nat.add_succ_r.
Qed.

Lemma rows_of_odd (l : list (string * string)) :
  forall n m u, Nat.even (List.length l) = false ->
  exists rs r,
    rows_of n l = rs ++ [r] /\
    rows_of n (l ++ [(m, u)]) =
    rs ++ [helper.set_Black_User u (helper.set_Black_Move m r)].
Proof.
  induction l as [| [wm wu] | [wm wu] [bm bu] l IH] using pairs_ind; intros n m u He.
  - discriminate.
  - exists [], (move_row n wm wu "waiting" "waiting"). split; reflexivity.
  - destruct (IH (S n) m u He) as (rs & r & E1 & E2).
    exists (move_row n wm wu bm bu :: rs), r.
    cbn [app rows_of]. rewrite E1, E2. split; reflexivity.
Qed.

Lemma combine_snoc {A B} (l1 : list A) (l2 : list B) (a : A) (b : B) :
  List.length l1 = List.length l2 ->
  combine (l1 ++ [a]) (l2 ++ [b]) = combine l1 l2 ++ [(a, b)].
Proof.
  revert l2. induction l1 as [|x l1 IH]; intros [|y l2] H; try discriminate.
  - reflexivity.
  - simpl. rewrite IH; [reflexivity|]. now injection H.
Qed.

Lemma plies_length (st : app.App) :
  owners_aligned st ->
  List.length (plies st) = List.length (chess.move_stack (app.board st)).
Proof.
  unfold owners_aligned, plies. intros H.
  rewrite length_combine, length_map, H. apply Nat.min_id.
Qed.

Lemma make_move_rows_current (st : app.App) (rq : app.Request) :
  rows_current st -> rows_current (app.state (app.make_move st rq)).
Proof.
  intros (Hal & Hrows & Ho).
  destruct (chess.parse_uci (app.board st) (move_text rq)) as [e|m] eqn:Hparse.
  { unfold app.make_move. fold (move_text rq). rewrite Hparse.
    rewrite (chess.parse_uci_raises _ _ _ Hparse). simpl. now repeat split. }
  destruct (chess.legal_moves_contains (app.board st) m) eqn:Hlegal.
  2:{ unfold app.make_move. fold (move_text rq). rewrite Hparse, Hlegal.
      simpl. now repeat split. }
  set (name := Py.or_default (app.username_cookie rq) "Anonymous").
  assert (Hplies : forall rows1,
             plies (app.state (moved st rq m rows1)) = plies st ++ [(chess.uci m, name)]).
  { intros rows1. unfold plies, moved. cbn [app.state app.board app.move_owners].
    rewrite (chess.move_stack_push _ _ _ Hparse), map_app. cbn [map].
    apply combine_snoc. now rewrite length_map. }
  assert (Hal' : forall rows1, owners_aligned (app.state (moved st rq m rows1))).
  { intros rows1. unfold owners_aligned, moved in *. cbn [app.state app.board app.move_owners].
    rewrite (chess.move_stack_push _ _ _ Hparse), !length_app, Hal. reflexivity. }
  assert (Ho' : forall rows1,
             current_orientation (app.state (moved st rq m rows1)) =
             parity_orientation
               (List.length (chess.move_stack (app.board (app.state (moved st rq m rows1)))))).
  { intros rows1. unfold moved, current_orientation in *.
    cbn [app.state app.board app.manager].
    rewrite (chess.move_stack_push _ _ _ Hparse), length_app, Nat.add_comm.
    cbn [List.length Nat.add].
    now apply toggle_parity. }
  unfold parity_orientation in Ho.
  destruct (Nat.even (List.length (chess.move_stack (app.board st)))) eqn:He.
  - rewrite (make_move_white st rq m Hparse Hlegal Ho).
    split; [apply Hal'|]. split; [|apply Ho'].
    rewrite Hplies. unfold rows at 1, moved.
    cbn [app.state app.tracker helper.get_moves_list helper.moves_list].
    rewrite rows_of_even by (now rewrite plies_length).
    rewrite <- Hrows. rewrite Nat.div_mul by discriminate.
    unfold move_row, name. do 3 f_equal. lia.
  - assert (Hw : String.eqb (current_orientation st) "white" = false) by now rewrite Ho.
    destruct (rows_of_odd (plies st) 1 (chess.uci m) name) as (rs & r & E1 & E2);
      [now rewrite plies_length|].
    rewrite <- Hrows in E1.
    rewrite (make_move_black st rq m rs r Hparse Hlegal Hw E1).
    split; [apply Hal'|]. split; [|apply Ho'].
    rewrite Hplies, E2. reflexivity.
Qed.

Lemma init_rows_current : rows_current app.App_init.
Proof.
  unfold rows_current, owners_aligned, plies, rows, current_orientation. simpl.
  rewrite chess.move_stack_new. repeat split.
Qed.

Lemma handle_rows_current (st : app.App) (req : app.Route * app.Request) :
  rows_current st -> rows_current (app.state (app.handle st req)).
Proof.
  intros Hc. destruct req as [[| | | |] rq]; unfold app.handle; cbn [fst snd].
  - now rewrite legal_moves_state.
  - now apply make_move_rows_current.
  - exact Hc.
  - unfold app.reset, rows_current, owners_aligned, plies, rows, current_orientation.
    cbn [app.state app.board app.move_owners app.tracker app.manager].
    rewrite chess.reset_new, chess.move_stack_new. repeat split.
  - now rewrite (proj1 (index_reads st rq)).
Qed.

(** After any sequence of requests the rows are the half-moves of the game
    paired two by two in order and numbered from 1: row k holds half-moves
    2k-1 and 2k with their owners, and the last row is open when the number
    of half-moves is odd. *)
Theorem rows_follow_the_game (reqs : list (app.Route * app.Request)) :
  rows (app.serve app.App_init reqs) = rows_of 1 (plies (app.serve app.App_init reqs)).
Proof.
  assert (H : rows_current (app.serve app.App_init reqs)).
  { unfold app.serve. generalize init_rows_current. generalize app.App_init.
    induction reqs as [|req reqs IH]; intros st Hst; [exact Hst|].
    simpl. apply IH. now apply handle_rows_current. }
  exact (proj1 (proj2 H)).
Qed.

End Server.

(** ** The PGN document *)
Section PgnText.
Context `{L : chess.Lib} `{C : @chess.pgn.Codec L}.

(** The tree with one line of play: every node is the only variation of its
    parent, and below the last node of the line hang [below]. *)
Fixpoint chain_then (line : list (chess.Move * string)) (below : list chess.pgn.GameNode)
  : list chess.pgn.GameNode :=
  match line with
  | [] => below
  | (m, c) :: line' => [chess.pgn.ChildNode m c (chain_then line' below)]
  end.

Definition chain (line : list (chess.Move * string)) : list chess.pgn.GameNode :=
  chain_then line [].

(** The path from the root to the last node of a line of [n] moves. *)
Definition line_end (n : nat) : list nat := repeat 0 n.

(** The comment [current_pgn] gives move number [i]. *)
Definition comment_for (move_owners : list string) (i : nat) : string :=
  match nth_error move_owners i with
  | Some owner => ("Move made by " ++ owner)%string
  | None => ""
  end.

Fixpoint annotated (move_owners : list string) (i : nat) (ms : list chess.Move)
  : list (chess.Move * string) :=
  match ms with
  | [] => []
  | m :: ms' => (m, comment_for move_owners i) :: annotated move_owners (S i) ms'
  end.

Lemma chain_then_app line1 line2 below :
  chain_then (line1 ++ line2) below = chain_then line1 (chain_then line2 below).
Proof.
  induction line1 as [|[m c] line1 IH]; simpl; [reflexivity|now rewrite IH].
Qed.

Lemma at_path_chain f line below :
  chess.pgn.at_path f (line_end (List.length line)) (chain_then line below) =
  chain_then line (f below).
Proof.
  induction line as [|[m c] line IH]; [reflexivity|].
  cbn [List.length chain_then]. unfold line_end in *.
  cbn [repeat chess.pgn.at_path nth_error firstn skipn app].
  now rewrite IH.
Qed.

Lemma variations_at_chain line below :
  chess.pgn.variations_at (line_end (List.length line)) (chain_then line below) = below.
Proof.
  induction line as [|[m c] line IH]; [reflexivity|].
  cbn [List.length chain_then]. unfold line_end in *.
  cbn [repeat chess.pgn.variations_at nth_error]. exact IH.
Qed.

Lemma line_end_succ n : line_end n ++ [0] = line_end (S n).
Proof. unfold line_end. now rewrite <- repeat_cons. Qed.

(** Adding a move at the end of a line extends the line. *)
Lemma add_variation_chain hs line mv :
  chess.pgn.add_variation
    {| chess.pgn.headers := hs; chess.pgn.variations := chain line |}
    (line_end (List.length line)) mv =
  ({| chess.pgn.headers := hs; chess.pgn.variations := chain (line ++ [(mv, "")]) |},
   line_end (List.length (line ++ [(mv, "")]))).
Proof.
  unfold chess.pgn.add_variation, chain. simpl.
  rewrite variations_at_chain, at_path_chain, chain_then_app. simpl.
  rewrite length_app, Nat.add_comm. simpl. now rewrite line_end_succ.
Qed.

(** Setting the comment of the last node of a line. *)
Lemma set_comment_chain hs line mv c c' :
  chess.pgn.set_comment
    {| chess.pgn.headers := hs; chess.pgn.variations := chain (line ++ [(mv, c)]) |}
    (line_end (List.length (line ++ [(mv, c)]))) c' =
  {| chess.pgn.headers := hs; chess.pgn.variations := chain (line ++ [(mv, c')]) |}.
Proof.
  unfold chess.pgn.set_comment, chain.
  rewrite length_app, Nat.add_comm. simpl List.length. cbn [Nat.add].
  rewrite <- line_end_succ, rev_app_distr. simpl. rewrite rev_involutive.
  rewrite !chain_then_app, at_path_chain. reflexivity.
Qed.

Lemma mainline_chain hs line :
  chess.pgn.mainline {| chess.pgn.headers := hs; chess.pgn.variations := chain line |} = line.
Proof.
  unfold chess.pgn.mainline, chain. simpl.
  induction line as [|[m c] line IH]; simpl; [reflexivity|].
  f_equal. destruct line as [|[m' c'] line']; [reflexivity|exact IH].
Qed.


(** The loop of [current_pgn], started at the end of the line built so far. *)
Lemma current_pgn_loop move_owners hs ms line :
  fold_left
    (fun (acc : chess.pgn.Game * list nat) (imv : nat * chess.Move) =>
       let '(game, node) := acc in
       let '(i, mv) := imv in
       let '(game, node) := chess.pgn.add_variation game node mv in
       if (i <? List.length move_owners)%nat then
         (chess.pgn.set_comment game node
            ("Move made by " ++ nth i move_owners "")%string, node)
       else (game, node))
    (combine (seq (List.length line) (List.length ms)) ms)
    ({| chess.pgn.headers := hs; chess.pgn.variations := chain line |},
     line_end (List.length line)) =
  ({| chess.pgn.headers := hs;
      chess.pgn.variations := chain (line ++ annotated move_owners (List.length line) ms) |},
   line_end (List.length (line ++ annotated move_owners (List.length line) ms))).
Proof.
  revert line. induction ms as [|m ms IH]; intros line.
  - simpl. now rewrite app_nil_r.
  - cbn [List.length seq combine fold_left annotated].
    rewrite add_variation_chain.
    assert (Hlen : List.length (line ++ [(m, comment_for move_owners (List.length line))])
                   = S (List.length line))
      by (rewrite length_app, Nat.add_comm; reflexivity).
    replace (line ++ (m, comment_for move_owners (List.length line))
                       :: annotated move_owners (S (List.length line)) ms)
      with ((line ++ [(m, comment_for move_owners (List.length line))])
              ++ annotated move_owners (S (List.length line)) ms)
      by (now rewrite <- app_assoc).
    rewrite <- Hlen. rewrite <- IH. rewrite Hlen. f_equal.
    unfold comment_for.
    destruct (List.length line <? List.length move_owners)%nat eqn:E.
    + apply Nat.ltb_lt in E.
      rewrite set_comment_chain.
      destruct (nth_error move_owners (List.length line)) as [o|] eqn:En.
      * rewrite (nth_error_nth _ _ _ En).
        f_equal. f_equal. rewrite ?length_app. simpl. lia.
      * apply nth_error_None in En. lia.
    + apply Nat.ltb_ge in E. apply nth_error_None in E. rewrite E.
      f_equal. f_equal. rewrite ?length_app. simpl. lia.
Qed.



(** The headers [current_pgn] ends up with. *)
Definition dated_headers (now : Py.date) (result : string) : list (string * string) :=
  [("Event", "Office Chess"); ("Site", "MGW1"); ("Date", Py.strftime_Ymd now);
   ("Round", "1"); ("White", "?"); ("Black", "?"); ("Result", result)].

(** What [current_pgn] builds: the dated headers over the line of the move
    stack, each move with its owner's comment. *)
Lemma current_pgn_game_chain board move_owners now :
  helper.current_pgn_game board move_owners now =
  {| chess.pgn.headers := dated_headers now (chess.result board);
     chess.pgn.variations := chain (annotated move_owners 0 (chess.move_stack board)) |}.
Proof.
  unfold helper.current_pgn_game, helper.enumerate.
  pose proof (current_pgn_loop move_owners (dated_headers now (chess.result board))
                (chess.move_stack board) []) as H.
  simpl in H. unfold chain at 1 in H. simpl in H.
  unfold chess.pgn.set_header, chess.pgn.Game_new. simpl.
  unfold dated_headers, line_end in H. simpl in H. rewrite H. reflexivity.
Qed.






(** *** The boards the server reaches *)






End PgnText.

(** ** The helper classes on their own *)

Lemma item_last_raises {A} (l : list A) (e : Py.exn) :
  Py.item_last l = inl e -> e = Py.IndexError.
Proof.
  induction l as [|x l IH]; simpl.
  - intros H. now injection H as <-.
  - destruct l; [discriminate|exact IH].
Qed.

Section Tracker.
Context `{L : chess.Lib}.

(** X3: recording a white half-move.  With a move on the stack and an owner
    on the list, the update returns and the rows are the old rows followed
    by one new row: numbered one more than the rows there were, with the
    last move's text and the last owner as White fields and the sentinel in
    both Black fields. *)
Theorem update_moves_list_white_appends
    (tr : helper.PGN_Tracker) (b : chess.Board) (owners os : list string)
    (ms : list chess.Move) (mv : chess.Move) (owner : string) :
  chess.move_stack b = ms ++ [mv] ->
  owners = os ++ [owner] ->
  exists r,
    helper.update_moves_list tr b owners "white" =
      ({| helper.moves_list := helper.moves_list tr ++ [r] |}, inr tt) /\
    helper.Move_no r = List.length (helper.moves_list tr) + 1 /\
    helper.White_Move r = chess.uci mv /\ helper.White_User r = owner /\
    helper.Black_Move r = "waiting" /\ helper.Black_User r = "waiting".
Proof.
  intros Hms ->. unfold helper.update_moves_list.
  rewrite Hms, !item_last_snoc. cbn [String.eqb Ascii.eqb Bool.eqb Py.bind Py.ret].
  eexists. split; [reflexivity|].
  cbn [helper.Move_no helper.White_Move helper.White_User helper.Black_Move
       helper.Black_User].
  rewrite Nat.div_mul by discriminate. repeat split; reflexivity.
Qed.

(** X4: recording a black half-move.  Whatever the orientation text is, as
    long as it is not "white": with rows, a move on the stack and an owner
    on the list, the update returns, the number of rows stays, the rows
    before the last are untouched, and the last row keeps its number and
    White fields and gets the last move's text and the last owner as Black
    fields. *)
Theorem update_moves_list_black_fills
    (tr : helper.PGN_Tracker) (b : chess.Board) (owners os : list string)
    (ms : list chess.Move) (mv : chess.Move) (owner orientation : string)
    (rs : list helper.MoveRow) (r : helper.MoveRow) :
  orientation <> "white" ->
  helper.moves_list tr = rs ++ [r] ->
  chess.move_stack b = ms ++ [mv] ->
  owners = os ++ [owner] ->
  exists r',
    helper.update_moves_list tr b owners orientation =
      ({| helper.moves_list := rs ++ [r'] |}, inr tt) /\
    helper.Move_no r' = helper.Move_no r /\
    helper.White_Move r' = helper.White_Move r /\
    helper.White_User r' = helper.White_User r /\
    helper.Black_Move r' = chess.uci mv /\ helper.Black_User r' = owner.
Proof.
  intros Ho Hrows Hms ->. unfold helper.update_moves_list.
  apply String.eqb_neq in Ho. rewrite Ho, Hrows, Hms, !item_last_snoc.
  cbn [Py.bind]. rewrite update_last_snoc. cbn [Py.bind].
  rewrite update_last_snoc.
  eexists. split; [reflexivity|]. repeat split; reflexivity.
Qed.

(** X5: when the update raises before writing.  With an empty move stack it
    raises IndexError whatever the orientation; for "white" with an empty
    owner list, and for any other orientation with no rows, it raises
    IndexError too.  In each case the tracker is as it was. *)
Theorem update_moves_list_raises
    (tr : helper.PGN_Tracker) (b : chess.Board) (owners : list string)
    (orientation : string) :
  (chess.move_stack b = [] ->
   helper.update_moves_list tr b owners orientation = (tr, inl Py.IndexError)) /\
  (orientation = "white" -> owners = [] ->
   helper.update_moves_list tr b owners orientation = (tr, inl Py.IndexError)) /\
  (orientation <> "white" -> helper.moves_list tr = [] ->
   helper.update_moves_list tr b owners orientation = (tr, inl Py.IndexError)).
Proof.
  unfold helper.update_moves_list. split; [|split].
  - intros ->. destruct (String.eqb orientation "white"); reflexivity.
  - intros -> ->. cbn [String.eqb Ascii.eqb Bool.eqb].
    destruct (Py.item_last (chess.move_stack b)) as [e|mv] eqn:E; [|reflexivity].
    now rewrite (item_last_raises _ _ E).
  - intros Ho ->. apply String.eqb_neq in Ho. rewrite Ho.
    destruct (Py.item_last (chess.move_stack b)) as [e|mv] eqn:E; [|reflexivity].
    now rewrite (item_last_raises _ _ E).
Qed.

(** X6: when the update raises half way.  For an orientation other than
    "white", with rows and a move on the stack but an empty owner list, the
    update raises IndexError after the first of its two assignments: the
    last row already holds the move's text as its Black move, and its Black
    user is still what it was. *)
Theorem update_moves_list_half_written
    (tr : helper.PGN_Tracker) (b : chess.Board) (orientation : string)
    (ms : list chess.Move) (mv : chess.Move)
    (rs : list helper.MoveRow) (r : helper.MoveRow) :
  orientation <> "white" ->
  helper.moves_list tr = rs ++ [r] ->
  chess.move_stack b = ms ++ [mv] ->
  helper.update_moves_list tr b [] orientation =
    ({| helper.moves_list := rs ++ [helper.set_Black_Move (chess.uci mv) r] |},
     inl Py.IndexError).
Proof.
  intros Ho Hrows Hms. unfold helper.update_moves_list.
  apply String.eqb_neq in Ho. rewrite Ho, Hrows, Hms, item_last_snoc.
  cbn [Py.bind]. rewrite update_last_snoc. reflexivity.
Qed.

End Tracker.

(** X7: toggling twice.  From "white" and from "black" two toggles give the
    orientation back; from any other text one toggle gives "white", so two
    give "black" and never the text back. *)
Theorem toggle_orientation_twice (mgr : helper.OrientationManager) :
  (helper.orientation mgr = "white" \/ helper.orientation mgr = "black" ->
   helper.toggle_orientation (helper.toggle_orientation mgr) = mgr) /\
  (helper.orientation mgr <> "white" ->
   helper.get_orientation (helper.toggle_orientation mgr) = "white" /\
   helper.get_orientation (helper.toggle_orientation (helper.toggle_orientation mgr))
     = "black") /\
  (helper.orientation mgr <> "white" -> helper.orientation mgr <> "black" ->
   helper.toggle_orientation (helper.toggle_orientation mgr) <> mgr).
Proof.
  destruct mgr as [o]. unfold helper.toggle_orientation, helper.get_orientation. simpl.
  split; [|split].
  - intros [->| ->]; reflexivity.
  - intros Ho. apply String.eqb_neq in Ho. rewrite Ho. split; reflexivity.
  - intros Ho Hb E. apply String.eqb_neq in Ho. rewrite Ho in E. simpl in E.
    injection E as E. now apply Hb.
Qed.

(** ** More on the handlers *)

(** The part of the library's contract that speaks of the side to move: White
    moves first, and pushing a move the board parsed and holds legal passes
    the turn. *)
Class TurnContract `{L : chess.Lib} : Prop := {
  turn_new : chess.turn chess.Board_new = chess.WHITE;
  turn_push :
    forall b s m, chess.parse_uci b s = inr m -> chess.legal_moves_contains b m = true ->
      chess.turn (chess.push b m) = negb (chess.turn b)
}.

Section Handlers.
Context `{L : chess.Lib} `{C : @chess.pgn.Codec L}.

(** A move attempt in a paired state either changes nothing and does not
    succeed, or applies a parsed, legal move and succeeds. *)
Lemma make_move_classified (st : app.App) (rq : app.Request) :
  paired st ->
  (app.succeeded (app.make_move st rq) = false /\
   app.state (app.make_move st rq) = st /\
   forall m, chess.parse_uci (app.board st) (move_text rq) = inr m ->
             chess.legal_moves_contains (app.board st) m = false) \/
  (exists m rows1,
     chess.parse_uci (app.board st) (move_text rq) = inr m /\
     chess.legal_moves_contains (app.board st) m = true /\
     app.make_move st rq = moved st rq m rows1).
Proof.
  intros Hp.
  destruct (chess.parse_uci (app.board st) (move_text rq)) as [e|m] eqn:Hparse.
  { left. unfold app.make_move, app.succeeded. fold (move_text rq). rewrite Hparse.
    rewrite (chess.parse_uci_raises _ _ _ Hparse). simpl.
    repeat split; intros; discriminate. }
  destruct (chess.legal_moves_contains (app.board st) m) eqn:Hlegal.
  2:{ left. unfold app.make_move, app.succeeded. fold (move_text rq).
      rewrite Hparse, Hlegal. simpl. repeat split.
      intros m' E. injection E as <-. exact Hlegal. }
  right. exists m. unfold paired in Hp.
  remember (current_orientation st) as o eqn:Ho.
  remember (rows st) as rws eqn:Hrows.
  destruct Hp as [rs Hclosed|rs r Hclosed Hopen].
  - eexists. split; [reflexivity|]. split; [exact Hlegal|].
    exact (make_move_white st rq m Hparse Hlegal (eq_sym Ho)).
  - eexists. split; [reflexivity|]. split; [exact Hlegal|].
    apply (make_move_black st rq m rs r Hparse Hlegal); [now rewrite <- Ho|now symmetry].
Qed.

Lemma moved_succeeded (st : app.App) (rq : app.Request) (m : chess.Move) rows1 :
  app.succeeded (moved st rq m rows1) = true.
Proof. reflexivity. Qed.

(** X8: the "board_update" events.  A handler emits one event when it is a
    move attempt that succeeds and when it is reset, and none otherwise.
    The event of a move attempt carries the position, orientation and rows
    of the answer, and is the snapshot [game_status] gives of the state left
    (at the same clock reading); the event of reset has no rows, the
    orientation white and the starting position. *)
Theorem board_update_events (st : app.App) (req : app.Route * app.Request) :
  let h := app.handle st req in
  ((fst req = app.Make_move /\ app.succeeded h = true) \/ fst req = app.Reset_game ->
     exists ev, app.emitted h = [ev]) /\
  (~ ((fst req = app.Make_move /\ app.succeeded h = true) \/ fst req = app.Reset_game) ->
     app.emitted h = []) /\
  (fst req = app.Make_move -> app.succeeded h = true ->
     exists ev rows1,
       app.emitted h = [ev] /\ app.bu_moves ev = Some rows1 /\
       app.outcome h = inr (app.Json_ok (app.bu_fen ev) (app.bu_orientation ev) rows1) /\
       app.outcome (app.game_status (app.state h) (snd req)) =
         inr (app.Json_status (app.bu_fen ev) (app.bu_pgn ev) (app.bu_statusText ev)
                (app.bu_orientation ev) rows1)) /\
  (fst req = app.Reset_game ->
     exists ev, app.emitted h = [ev] /\ app.bu_moves ev = None /\
                app.bu_orientation ev = "white" /\
                app.bu_fen ev = chess.fen chess.Board_new).
Proof.
  destruct req as [route rq]. cbv zeta. unfold app.handle. cbn [fst snd].
  destruct route.
  - unfold app.legal_moves.
    destruct (chess.parse_square _) as [[|]|sq]; cbn [app.emitted];
      (split; [intros [[E _]|E]; discriminate|]);
      (split; [reflexivity|]); split; intros; discriminate.
  - unfold app.make_move, app.succeeded.
    destruct (chess.parse_uci _ _) as [[|]|m]; cbn [app.emitted app.outcome];
      try (split; [intros [[_ E]|E]; discriminate|];
           split; [reflexivity|]; split; intros; discriminate).
    destruct (chess.legal_moves_contains _ m); cbn [app.emitted app.outcome];
      try (split; [intros [[_ E]|E]; discriminate|];
           split; [reflexivity|]; split; intros; discriminate).
    destruct (helper.update_moves_list _ _ _ _) as [tr' [e|u]];
      cbn [app.emitted app.outcome];
      try (split; [intros [[_ E]|E]; discriminate|];
           split; [reflexivity|]; split; intros; discriminate).
    split; [eauto|]. split; [intros H; exfalso; apply H; left; now split|].
    split; [|intros; discriminate].
    intros _ _. eexists. eexists. repeat split; reflexivity.
  - cbn [app.game_status app.emitted].
    split; [intros [[E _]|E]; discriminate|].
    split; [reflexivity|]. split; intros; discriminate.
  - unfold app.reset. cbn [app.emitted].
    split; [eauto|]. split; [intros H; exfalso; apply H; now right|].
    split; [intros; discriminate|].
    intros _. eexists. split; [reflexivity|]. cbn [app.bu_moves app.bu_orientation app.bu_fen].
    rewrite chess.reset_new. repeat split; reflexivity.
  - unfold app.index.
    destruct (String.eqb (app.method rq) "GET");
      [destruct (app.username_cookie rq) as [[|c s]|]|
       destruct (String.eqb (app.method rq) "POST");
       [destruct (app.form_lookup _ _) as [[|c s]|]|]];
      cbn [app.emitted];
      (split; [intros [[E _]|E]; discriminate|]);
      (split; [reflexivity|]); split; intros; discriminate.
Qed.

(** Pairing together with a count of the moves on the board. *)
Lemma count_step_moves (reqs : list (app.Route * app.Request)) (st : app.App) (n : nat) :
  paired st -> n = List.length (chess.move_stack (app.board st)) ->
  snd (fold_left app.count_step reqs (st, n)) =
  List.length (chess.move_stack (app.board (fst (fold_left app.count_step reqs (st, n))))).
Proof.
  revert st n. induction reqs as [|[route rq] reqs IH]; intros st n Hp Hn; [exact Hn|].
  cbn [fold_left app.count_step fst snd]. apply IH.
  - now apply handle_paired.
  - destruct route; unfold app.handle; cbn [fst snd].
    + now rewrite legal_moves_state.
    + destruct (make_move_classified st rq Hp) as [(Hs & Hst & _)|(m & rows1 & Hparse & _ & E)].
      * now rewrite Hs, Hst.
      * rewrite E, moved_succeeded. unfold moved. cbn [app.state app.board].
        rewrite (chess.move_stack_push _ _ _ Hparse), length_app, Hn. simpl. lia.
    + exact Hn.
    + unfold app.reset. cbn [app.state app.board].
      now rewrite chess.reset_new, chess.move_stack_new.
    + now rewrite (proj1 (index_reads st rq)).
Qed.

(** X9: counting moves.  After any sequence of requests the number of
    successful move attempts since the last reset is the length of the
    board's move stack, and the orientation is white exactly when that
    length is even. *)
Theorem moves_since_reset_is_stack_length (reqs : list (app.Route * app.Request)) :
  let st := app.serve app.App_init reqs in
  app.moves_since_reset reqs = List.length (chess.move_stack (app.board st)) /\
  (current_orientation st = "white" <->
   Nat.even (List.length (chess.move_stack (app.board st))) = true).
Proof.
  cbv zeta.
  assert (H : app.moves_since_reset reqs =
              List.length (chess.move_stack (app.board (app.serve app.App_init reqs)))).
  { unfold app.moves_since_reset.
    rewrite <- (count_step_serve reqs app.App_init 0).
    apply count_step_moves; [exact init_paired|].
    simpl. now rewrite chess.move_stack_new. }
  split; [exact H|]. rewrite <- H.
  pose proof (count_step_parity reqs app.App_init 0 eq_refl) as Hpar.
  rewrite count_step_serve in Hpar. fold (app.moves_since_reset reqs) in Hpar.
  rewrite Hpar. unfold parity_orientation.
  destruct (Nat.even _); split; intros E; try reflexivity; discriminate.
Qed.

(** X14: which attempts succeed.  After any sequence of requests a move
    attempt succeeds exactly when the library parses the text to a move the
    board holds legal; then that move is pushed and the owner appended.
    Nothing else is consulted: not whether the game is over, nor who posts. *)
Theorem make_move_succeeds_iff_legal
    (reqs : list (app.Route * app.Request)) (rq : app.Request) :
  let st := app.serve app.App_init reqs in
  (app.succeeded (app.make_move st rq) = true <->
   exists m, chess.parse_uci (app.board st) (move_text rq) = inr m /\
             chess.legal_moves_contains (app.board st) m = true) /\
  (forall m,
     chess.parse_uci (app.board st) (move_text rq) = inr m ->
     chess.legal_moves_contains (app.board st) m = true ->
     app.board (app.state (app.make_move st rq)) = chess.push (app.board st) m /\
     app.move_owners (app.state (app.make_move st rq)) =
       app.move_owners st ++ [Py.or_default (app.username_cookie rq) "Anonymous"]).
Proof.
  cbv zeta. set (st := app.serve app.App_init reqs).
  assert (Hp : paired st) by (apply serve_paired, init_paired).
  destruct (make_move_classified st rq Hp) as [(Hs & Hst & Hno)|(m & rows1 & Hparse & Hlegal & E)].
  - split.
    + rewrite Hs. split; [discriminate|].
      intros (m & Hparse & Hlegal). rewrite (Hno m Hparse) in Hlegal. discriminate.
    + intros m Hparse Hlegal. rewrite (Hno m Hparse) in Hlegal. discriminate.
  - split.
    + rewrite E, moved_succeeded. split; [eauto|reflexivity].
    + intros m' Hparse' _. rewrite Hparse in Hparse'. injection Hparse' as <-.
      rewrite E. split; reflexivity.
Qed.

(** Pairing together with agreement of orientation and side to move. *)
Definition turn_orientation (st : app.App) : Prop :=
  current_orientation st = if chess.turn (app.board st) then "white" else "black".

Lemma handle_turn_orientation `{T : @TurnContract L}
    (st : app.App) (req : app.Route * app.Request) :
  paired st -> turn_orientation st -> turn_orientation (app.state (app.handle st req)).
Proof.
  intros Hp Ht. destruct req as [[| | | |] rq]; unfold app.handle; cbn [fst snd].
  - now rewrite legal_moves_state.
  - destruct (make_move_classified st rq Hp) as [(_ & Hst & _)|(m & rows1 & Hparse & Hlegal & E)].
    + now rewrite Hst.
    + rewrite E. unfold turn_orientation, moved, current_orientation in *.
      cbn [app.state app.board app.manager].
      rewrite (turn_push _ _ _ Hparse Hlegal).
      unfold helper.get_orientation, helper.toggle_orientation in *.
      cbn [helper.orientation]. rewrite Ht.
      destruct (chess.turn (app.board st)); reflexivity.
  - exact Ht.
  - unfold turn_orientation, app.reset, current_orientation.
    cbn [app.state app.board app.manager].
    rewrite chess.reset_new, turn_new. reflexivity.
  - now rewrite (proj1 (index_reads st rq)).
Qed.

(** X10: the orientation follows the side to move.  With a library in which
    White moves first and a pushed move passes the turn, after any sequence
    of requests the orientation is "white" when it is White's turn on the
    board and "black" when it is Black's. *)
Theorem orientation_is_side_to_move `{T : @TurnContract L}
    (reqs : list (app.Route * app.Request)) :
  current_orientation (app.serve app.App_init reqs) =
  if chess.turn (app.board (app.serve app.App_init reqs)) then "white" else "black".
Proof.
  assert (H : forall st, paired st -> turn_orientation st ->
                         turn_orientation (app.serve st reqs)).
  { induction reqs as [|req reqs IH]; intros st Hp Ht; [exact Ht|].
    simpl. apply IH; [now apply handle_paired|now apply handle_turn_orientation]. }
  apply H; [exact init_paired|].
  unfold turn_orientation, current_orientation. simpl. now rewrite turn_new.
Qed.

End Handlers.

(** ** Owners, rows and the PGN of the states the server reaches *)
Section Records.
Context `{L : chess.Lib} `{C : @chess.pgn.Codec L}.

Lemma or_default_not_empty (v : option string) (default : string) :
  default <> "" -> Py.or_default v default <> "".
Proof. intros Hd. destruct v as [[|c s]|]; simpl; auto; discriminate. Qed.

Lemma make_move_owners (st : app.App) (rq : app.Request) :
  app.move_owners (app.state (app.make_move st rq)) = app.move_owners st \/
  app.move_owners (app.state (app.make_move st rq)) =
    app.move_owners st ++ [Py.or_default (app.username_cookie rq) "Anonymous"].
Proof.
  unfold app.make_move.
  destruct (chess.parse_uci _ _) as [[|]|m]; simpl; auto.
  destruct (chess.legal_moves_contains _ m); simpl; auto.
  destruct (helper.update_moves_list _ _ _ _) as [tr' [e|u]]; simpl; auto.
Qed.

(** X11: the owners on record.  A move attempt records the name from the
    cookie, and "Anonymous" when the cookie is absent or empty; so after any
    sequence of requests no recorded owner is the empty text. *)
Theorem owners_never_empty (reqs : list (app.Route * app.Request)) :
  Forall (fun owner => owner <> "") (app.move_owners (app.serve app.App_init reqs)) /\
  (forall st rq,
     app.succeeded (app.make_move st rq) = true ->
     app.move_owners (app.state (app.make_move st rq)) =
       app.move_owners st ++
       [match app.username_cookie rq with
        | Some (String c s) => String c s
        | _ => "Anonymous"
        end]).
Proof.
  split.
  - unfold app.serve.
    assert (H0 : Forall (fun owner => owner <> "") (app.move_owners app.App_init))
      by constructor.
    revert H0. generalize app.App_init.
    induction reqs as [|[route rq] reqs IH]; intros st Hst; [exact Hst|].
    simpl. apply IH. destruct route; unfold app.handle; cbn [fst snd].
    + now rewrite legal_moves_state.
    + destruct (make_move_owners st rq) as [->| ->]; [exact Hst|].
      apply Forall_app. split; [exact Hst|]. constructor; [|constructor].
      apply or_default_not_empty. discriminate.
    + exact Hst.
    + constructor.
    + now rewrite (proj1 (index_reads st rq)).
  - intros st rq. unfold app.make_move, app.succeeded.
    destruct (chess.parse_uci _ _) as [[|]|m]; simpl; try discriminate.
    destruct (chess.legal_moves_contains _ m); simpl; try discriminate.
    destruct (helper.update_moves_list _ _ _ _) as [tr' [e|u]]; simpl; try discriminate.
    intros _. destruct (app.username_cookie rq) as [[|c s]|]; reflexivity.
Qed.

Lemma serve_rows_current (reqs : list (app.Route * app.Request)) :
  rows_current (app.serve app.App_init reqs).
Proof.
  unfold app.serve. generalize init_rows_current. generalize app.App_init.
  induction reqs as [|req reqs IH]; intros st Hst; [exact Hst|].
  simpl. apply IH. now apply handle_rows_current.
Qed.

Lemma rows_of_length (l : list (string * string)) :
  forall n, List.length (rows_of n l) = (List.length l + 1) / 2.
Proof.
  induction l as [| [wm wu] | [wm wu] [bm bu] l IH] using pairs_ind; intros n.
  - reflexivity.
  - reflexivity.
  - cbn [rows_of List.length]. rewrite (IH (S n)).
    replace (S (S (List.length l)) + 1) with ((List.length l + 1) + 1 * 2) by lia.
    rewrite Nat.div_add by discriminate. lia.
Qed.

Lemma rows_of_numbers (l : list (string * string)) :
  forall n i r, nth_error (rows_of n l) i = Some r -> helper.Move_no r = n + i.
Proof.
  induction l as [| [wm wu] | [wm wu] [bm bu] l IH] using pairs_ind; intros n i r H.
  - destruct i; discriminate.
  - destruct i as [|[|i]]; try discriminate. injection H as <-. simpl. lia.
  - destruct i as [|i]; [injection H as <-; simpl; lia|].
    cbn [rows_of nth_error] in H. rewrite (IH (S n) i r H). lia.
Qed.

(** X12: how many rows, and their numbers.  After any sequence of requests
    there is one row for every two half-moves on the board's stack, rounded
    up, and the rows are numbered 1, 2, 3, ... in order. *)
Theorem rows_count_and_numbers (reqs : list (app.Route * app.Request)) :
  let st := app.serve app.App_init reqs in
  List.length (rows st) = (List.length (chess.move_stack (app.board st)) + 1) / 2 /\
  (forall i r, nth_error (rows st) i = Some r -> helper.Move_no r = i + 1).
Proof.
  cbv zeta. destruct (serve_rows_current reqs) as (Hal & Hrows & _).
  rewrite Hrows. split.
  - now rewrite rows_of_length, plies_length.
  - intros i r H. rewrite (rows_of_numbers _ 1 i r H). lia.
Qed.

Lemma annotated_aligned (done owners : list string) (ms : list chess.Move) :
  List.length ms = List.length owners ->
  annotated (done ++ owners) (List.length done) ms =
  map (fun mo => (fst mo, ("Move made by " ++ snd mo)%string)) (combine ms owners).
Proof.
  revert done owners. induction ms as [|m ms IH]; intros done [|o owners] H;
    try discriminate; [reflexivity|].
  cbn [annotated combine map fst snd]. f_equal.
  - unfold comment_for. rewrite nth_error_app2 by lia. now rewrite Nat.sub_diag.
  - replace (done ++ o :: owners) with ((done ++ [o]) ++ owners)
      by (now rewrite <- app_assoc).
    replace (S (List.length done)) with (List.length (done ++ [o]))
      by (rewrite length_app; simpl; lia).
    apply IH. now injection H.
Qed.

(** X13: every move of the PGN is attributed.  After any sequence of
    requests, in the game [current_pgn] builds from the board and the owner
    list, the mainline is the move stack in order and each move carries the
    comment "Move made by" followed by the owner recorded for it. *)
Theorem current_pgn_attributes_every_move
    (reqs : list (app.Route * app.Request)) (now : Py.date) :
  let st := app.serve app.App_init reqs in
  chess.pgn.mainline (helper.current_pgn_game (app.board st) (app.move_owners st) now) =
  map (fun mo => (fst mo, ("Move made by " ++ snd mo)%string))
      (combine (chess.move_stack (app.board st)) (app.move_owners st)).
Proof.
  cbv zeta. destruct (serve_rows_current reqs) as (Hal & _ & _).
  rewrite current_pgn_game_chain, mainline_chain.
  apply (annotated_aligned [] _ _). now symmetry.
Qed.

Lemma annotated_firstn (owners : list string) (ms : list chess.Move) (k n : nat) :
  k + List.length ms <= n ->
  annotated (firstn n owners) k ms = annotated owners k ms.
Proof.
  revert k. induction ms as [|m ms IH]; intros k H; [reflexivity|].
  cbn [annotated]. simpl in H. rewrite IH by lia. f_equal. f_equal.
  unfold comment_for.
  assert (E : nth_error (firstn n owners) k = nth_error owners k).
  { clear - H. revert k n H. induction owners as [|o owners IHo]; intros k n H.
    - now rewrite firstn_nil.
    - destruct n as [|n]; [lia|]. destruct k as [|k]; [reflexivity|].
      simpl. apply IHo. lia. }
  now rewrite E.
Qed.

(** X15: what [current_pgn] takes from its arguments.  The game it builds
    has the seven tags in roster order, with the fixed event, site and round,
    the date of the clock, "?" for both players and the board's result; and
    owners beyond the length of the move stack are ignored: cutting the owner
    list to that length gives the same game and the same text. *)
Theorem current_pgn_headers_and_surplus_owners
    (board : chess.Board) (move_owners : list string) (now : Py.date) :
  chess.pgn.headers (helper.current_pgn_game board move_owners now) =
    [("Event", "Office Chess"); ("Site", "MGW1"); ("Date", Py.strftime_Ymd now);
     ("Round", "1"); ("White", "?"); ("Black", "?"); ("Result", chess.result board)] /\
  helper.current_pgn_game board
    (firstn (List.length (chess.move_stack board)) move_owners) now =
    helper.current_pgn_game board move_owners now /\
  helper.current_pgn board
    (firstn (List.length (chess.move_stack board)) move_owners) now =
    helper.current_pgn board move_owners now.
Proof.
  assert (E : helper.current_pgn_game board
                (firstn (List.length (chess.move_stack board)) move_owners) now =
              helper.current_pgn_game board move_owners now).
  { rewrite !current_pgn_game_chain. now rewrite annotated_firstn by (simpl; lia). }
  split; [now rewrite current_pgn_game_chain|]. split; [exact E|].
  unfold helper.current_pgn. now rewrite E.
Qed.

(** X16: the pages of [index].  It changes no global and emits nothing.  It
    shows the board page only with a name that is not empty, the cookie's on
    GET and the form's on POST, together with the board's position; without
    one it shows the login page (with an error on POST); any other method is
    answered with status 400. *)
Theorem index_pages (st : app.App) (rq : app.Request) :
  app.state (app.index st rq) = st /\
  app.emitted (app.index st rq) = [] /\
  (forall args, app.outcome (app.index st rq) = inr (app.Rendered "index.html" args) ->
     exists name, name <> "" /\ args = [("fen", chess.fen (app.board st)); ("name", name)] /\
       ((app.method rq = "GET" /\ app.username_cookie rq = Some name) \/
        (app.method rq = "POST" /\ app.form_lookup (app.form rq) "name" = Some name))) /\
  (app.method rq = "GET" ->
     (app.username_cookie rq = None \/ app.username_cookie rq = Some "") ->
     app.outcome (app.index st rq) = inr (app.Rendered "login.html" [])) /\
  (app.method rq = "POST" ->
     (app.form_lookup (app.form rq) "name" = None \/
      app.form_lookup (app.form rq) "name" = Some "") ->
     app.outcome (app.index st rq) =
       inr (app.Rendered "login.html" [("error", "Please enter a name.")])) /\
  (app.method rq <> "GET" -> app.method rq <> "POST" ->
     app.outcome (app.index st rq) = inr (app.Text "Something unexpected happened" 400)).
Proof.
  unfold app.index.
  destruct (String.eqb_spec (app.method rq) "GET") as [Hg|Hg];
    [destruct (app.username_cookie rq) as [[|c s]|] eqn:Hc
    |destruct (String.eqb_spec (app.method rq) "POST") as [Hp|Hp];
     [destruct (app.form_lookup (app.form rq) "name") as [[|c s]|] eqn:Hf|]];
    cbn [app.state app.emitted app.outcome];
    (split; [reflexivity|]); (split; [reflexivity|]);
    (split; [intros args E;
             first [discriminate
                   |injection E as <-; exists (String c s);
                    split; [discriminate|split; [reflexivity|]];
                    first [left; now split|right; now split]]|]);
    repeat split; try reflexivity; try (intros; congruence);
    try (intros _ [E|E]; discriminate).
Qed.

Lemma destinations_of_In (ms : list chess.Move) (dests : list string) (m : chess.Move) :
  destinations_of ms dests -> In m ms ->
  exists d, chess.square_name (chess.to_square m) = inr d /\ In d dests.
Proof.
  induction 1 as [|m' d ms dests Hd _ IH]; intros Hin; [destruct Hin|].
  destruct Hin as [->|Hin].
  - exists d. split; [exact Hd|now left].
  - destruct (IH Hin) as (d' & Hd' & Hin'). exists d'. split; [exact Hd'|now right].
Qed.

(** X17: an accepted move was on offer.  When the library parses a move text
    to a move the board holds legal (so that the attempt would be accepted),
    the query for legal destinations from that move's origin square answers
    with a list that holds the name of the move's destination square. *)
Theorem accepted_move_was_offered
    (st : app.App) (rq_move rq_square : app.Request) (m : chess.Move) :
  chess.parse_uci (app.board st) (move_text rq_move) = inr m ->
  chess.legal_moves_contains (app.board st) m = true ->
  chess.parse_square (square_text rq_square) = inr (chess.from_square m) ->
  exists dests d,
    app.outcome (app.legal_moves st rq_square) = inr (app.Json_moves dests) /\
    chess.square_name (chess.to_square m) = inr d /\
    In d dests.
Proof.
  intros Hparse Hlegal Hsq.
  pose proof (chess.parse_uci_legal _ _ _ Hparse Hlegal) as Hin.
  unfold app.legal_moves. fold (square_text rq_square). rewrite Hsq.
  destruct (legal_moves_loop (chess.from_square m) (chess.legal_moves (app.board st)) [])
    as (dests & Hfold & Hdests).
  { intros m' Hm'. now apply (chess.legal_moves_valid (app.board st)). }
  destruct (destinations_of_In _ _ m Hdests) as (d & Hd & Hind).
  { apply filter_In. split; [exact Hin|]. unfold starts_at. apply Nat.eqb_refl. }
  exists dests, d. unfold Py.ret in *. cbn [app.outcome]. rewrite Hfold.
  simpl. auto.
Qed.

End Records.

(** ** The reference model keeps the contract *)
Section EngineContract.

Lemma engine_parse_square_raises (s : string) (e : Py.exn) :
  engine.parse_square s = inl e -> e = Py.ValueError.
Proof.
  unfold engine.parse_square. destruct (find _ _); [discriminate|].
  intros H. now injection H as <-.
Qed.

Lemma engine_from_uci_raises (s : string) (e : Py.exn) :
  engine.from_uci s = inl e -> e = Py.ValueError.
Proof.
  unfold engine.from_uci. destruct (String.eqb s "0000"); [discriminate|].
  destruct s as [|a [|b [|c [|d rest]]]]; try (intros H; now injection H as <-).
  destruct (engine.parse_square (String a (String b ""))) as [e1|src] eqn:E1.
  { intros H. injection H as <-. exact (engine_parse_square_raises _ _ E1). }
  destruct (engine.parse_square (String c (String d ""))) as [e2|dst] eqn:E2.
  { intros H. injection H as <-. exact (engine_parse_square_raises _ _ E2). }
  cbn [Py.bind].
  destruct rest as [|p [|q rest]]; cbn [Py.bind Py.ret Py.raise].
  - destruct (src =? dst)%nat; intros H; [now injection H as <-|discriminate].
  - destruct (engine.kind_of_symbol p); cbn [Py.bind Py.ret Py.raise];
      [destruct (src =? dst)%nat|]; intros H; try discriminate; now injection H as <-.
  - intros H. now injection H as <-.
Qed.

Lemma engine_parse_uci_raises (b : engine.Board) (s : string) (e : Py.exn) :
  engine.parse_uci b s = inl e -> e = Py.ValueError.
Proof.
  unfold engine.parse_uci.
  destruct (engine.from_uci s) as [e1|m] eqn:E1; cbn [Py.bind].
  { intros H. injection H as <-. exact (engine_from_uci_raises _ _ E1). }
  destruct (engine.is_null m); [discriminate|].
  destruct (engine.legal_moves_contains b _); [discriminate|].
  intros H. now injection H as <-.
Qed.

Lemma engine_square_name_valid (sq : nat) :
  sq < 64 -> exists s, engine.square_name sq = inr s.
Proof.
  intros H. unfold engine.square_name. apply Nat.ltb_lt in H. rewrite H. eauto.
Qed.

Lemma engine_uci_length (m : engine.Move) : String.length (engine.uci m) <= 5.
Proof.
  unfold engine.uci, engine.name_of. destruct (engine.is_null m); [simpl; lia|].
  destruct (engine.promotion m); simpl; lia.
Qed.

Lemma move_eqb_eq (a b : engine.Move) : engine.move_eqb a b = true -> a = b.
Proof.
  destruct a as [fa ta pa], b as [fb tb pb]. unfold engine.move_eqb. simpl.
  intros H. apply andb_prop in H. destruct H as [H Hp].
  apply andb_prop in H. destruct H as [Hf Ht].
  apply Nat.eqb_eq in Hf, Ht. subst.
  destruct pa as [[]|], pb as [[]|]; try discriminate; reflexivity.
Qed.

Lemma engine_contains_listed (b : engine.Board) (m : engine.Move) :
  engine.legal_moves_contains b m = true -> In m (engine.legal_moves b).
Proof.
  unfold engine.legal_moves_contains. intros H.
  apply existsb_exists in H. destruct H as (m' & Hin & Heq).
  apply move_eqb_eq in Heq. now subst m'.
Qed.

Lemma engine_parse_uci_legal (b : engine.Board) (s : string) (m : engine.Move) :
  engine.parse_uci b s = inr m -> engine.legal_moves_contains b m = true ->
  In m (engine.legal_moves b).
Proof. intros _. apply engine_contains_listed. Qed.

Lemma engine_move_stack_push (b : engine.Board) (s : string) (m : engine.Move) :
  engine.parse_uci b s = inr m ->
  engine.move_stack (engine.push b m) = engine.move_stack b ++ [m].
Proof. reflexivity. Qed.

Lemma engine_legal_on_board (b : engine.Board) (m : engine.Move) :
  In m (engine.legal_moves b) ->
  engine.from_square m < 64 /\ engine.to_square m < 64 /\
  engine.from_square m <> engine.to_square m /\
  engine.piece_at b (engine.from_square m) <> None.
Proof.
  unfold engine.legal_moves, engine.position_legal_moves. intros H.
  apply filter_In in H. destruct H as [_ H].
  apply andb_prop in H. destruct H as [H _]. unfold engine.on_board in H.
  repeat (apply andb_prop in H; destruct H as [H ?]).
  repeat split.
  - now apply Nat.ltb_lt.
  - now apply Nat.ltb_lt.
  - apply Nat.eqb_neq. now apply negb_true_iff.
  - unfold engine.piece_at. destruct (engine.piece_on _ _); [discriminate|].
    discriminate.
Qed.

Lemma engine_legal_moves_valid (b : engine.Board) (m : engine.Move) :
  In m (engine.legal_moves b) ->
  engine.from_square m < 64 /\ engine.to_square m < 64 /\
  engine.piece_at b (engine.from_square m) <> None.
Proof.
  intros H. destruct (engine_legal_on_board b m H) as (H1 & H2 & _ & H3). auto.
Qed.

Lemma engine_result_values (b : engine.Board) :
  In (engine.result b) ["1-0"; "0-1"; "1/2-1/2"; "*"].
Proof.
  unfold engine.result, engine.outcome.
  repeat match goal with
         | |- context [if ?c then _ else _] => destruct c
         end; simpl; auto.
Qed.

End EngineContract.

(** The model as an instance of the interface. *)
#[export] Instance reference_lib : chess.Lib := {|
  chess.Board := engine.Board;
  chess.Move := engine.Move;
  chess.Piece := engine.Piece;
  chess.parse_square := engine.parse_square;
  chess.square_name := engine.square_name;
  chess.from_square := engine.from_square;
  chess.to_square := engine.to_square;
  chess.uci := engine.uci;
  chess.Board_new := engine.Board_new;
  chess.reset := engine.reset;
  chess.parse_uci := engine.parse_uci;
  chess.legal_moves := engine.legal_moves;
  chess.legal_moves_contains := engine.legal_moves_contains;
  chess.push := engine.push;
  chess.move_stack := engine.move_stack;
  chess.fen := engine.fen;
  chess.is_game_over := engine.is_game_over;
  chess.result := engine.result;
  chess.turn := fun b => engine.turn (engine.position b);
  chess.is_check := engine.is_check;
  chess.piece_at := engine.piece_at;
  chess.parse_square_raises := engine_parse_square_raises;
  chess.parse_uci_raises := engine_parse_uci_raises;
  chess.square_name_valid := engine_square_name_valid;
  chess.uci_length := engine_uci_length;
  chess.move_stack_new := eq_refl;
  chess.reset_new := fun _ => eq_refl;
  chess.parse_uci_legal := engine_parse_uci_legal;
  chess.move_stack_push := engine_move_stack_push;
  chess.legal_moves_valid := engine_legal_moves_valid;
  chess.result_values := engine_result_values
|}.

(** *** The codec of the model *)

Definition reference_to_str (g : chess.pgn.Game) : string :=
  engine.movetext (chess.pgn.mainline_moves g).

Definition reference_read_game (s : string) : option chess.pgn.Game :=
  match engine.read_moves (engine.words s "") with
  | Some ms =>
      Some {| chess.pgn.headers := chess.pgn.headers chess.pgn.Game_new;
              chess.pgn.variations := chain (map (fun m => (m, "")) ms) |}
  | None => None
  end.

(** A move the coordinate notation can name and read back. *)
Definition writable (m : engine.Move) : Prop :=
  engine.from_square m < 64 /\ engine.to_square m < 64 /\
  engine.from_square m <> engine.to_square m.

Definition no_blank (s : string) : bool :=
  forallb (fun a => negb (Ascii.eqb a " "%char)) (list_ascii_of_string s).

Section ReferenceCodec.

Lemma append_snoc (s : string) (a : ascii) (t : string) :
  ((s ++ String a "") ++ t)%string = (s ++ String a t)%string.
Proof. induction s as [|c s IH]; simpl; [reflexivity|now rewrite IH]. Qed.

Lemma append_empty (s : string) : (s ++ "")%string = s.
Proof. induction s as [|c s IH]; simpl; [reflexivity|now rewrite IH]. Qed.

Lemma words_word (w rest word : string) :
  no_blank w = true ->
  engine.words (w ++ String " " rest) word = (word ++ w)%string :: engine.words rest "".
Proof.
  revert word. induction w as [|a w IH]; intros word Hw.
  - simpl. now rewrite append_empty.
  - unfold no_blank in Hw. simpl in Hw. apply andb_prop in Hw. destruct Hw as [Ha Hw].
    cbn [String.append engine.words].
    apply negb_true_iff in Ha. rewrite Ha.
    rewrite (IH _ Hw). now rewrite append_snoc.
Qed.

Lemma file_char_cases (n : nat) :
  In (engine.file_char n) ["a"; "b"; "c"; "d"; "e"; "f"; "g"; "h"]%char.
Proof.
  unfold engine.file_char.
  do 8 (destruct n as [|n]; [simpl; auto 10|]). destruct n; simpl; auto 10.
Qed.

Lemma rank_char_cases (n : nat) :
  In (engine.rank_char n) ["1"; "2"; "3"; "4"; "5"; "6"; "7"; "8"]%char.
Proof.
  unfold engine.rank_char.
  do 8 (destruct n as [|n]; [simpl; auto 10|]). destruct n; simpl; auto 10.
Qed.

Lemma name_of_no_blank (sq : nat) (rest : string) :
  no_blank (engine.name_of sq ++ rest) = no_blank rest.
Proof.
  unfold engine.name_of, no_blank. cbn [String.append list_ascii_of_string forallb].
  destruct (file_char_cases (sq mod 8)) as [<-|[<-|[<-|[<-|[<-|[<-|[<-|[<-|[]]]]]]]]];
    destruct (rank_char_cases (sq / 8 mod 8)) as [<-|[<-|[<-|[<-|[<-|[<-|[<-|[<-|[]]]]]]]]];
    reflexivity.
Qed.

Lemma uci_no_blank (m : engine.Move) : no_blank (engine.uci m) = true.
Proof.
  unfold engine.uci. destruct (engine.is_null m); [reflexivity|].
  rewrite !name_of_no_blank. destruct (engine.promotion m) as [[]|]; reflexivity.
Qed.

Lemma words_movetext (ms : list engine.Move) :
  engine.words (engine.movetext ms) "" = map engine.uci ms.
Proof.
  induction ms as [|m ms IH]; [reflexivity|].
  cbn [engine.movetext map]. rewrite words_word by apply uci_no_blank.
  now rewrite IH.
Qed.

Lemma parse_square_name_of (sq : nat) :
  sq < 64 -> engine.parse_square (engine.name_of sq) = inr sq.
Proof.
  intros H.
  assert (Hall : forallb (fun sq => match engine.parse_square (engine.name_of sq) with
                                     | inr sq' => (sq' =? sq)%nat
                                     | inl _ => false
                                     end) (seq 0 64) = true) by (vm_compute; reflexivity).
  rewrite forallb_forall in Hall. specialize (Hall sq).
  destruct (engine.parse_square (engine.name_of sq)) as [e|sq'].
  - discriminate Hall. apply in_seq. lia.
  - f_equal. apply Nat.eqb_eq, Hall. apply in_seq. lia.
Qed.

Lemma from_uci_uci (m : engine.Move) : writable m -> engine.from_uci (engine.uci m) = inr m.
Proof.
  intros (Hf & Ht & Hne). destruct m as [src dst promo]. simpl in Hf, Ht, Hne.
  unfold engine.uci, engine.is_null, engine.move_eqb, engine.null_move.
  cbn [engine.from_square engine.to_square engine.promotion].
  assert (Hnull : ((src =? 0)%nat && (dst =? 0)%nat) = false).
  { destruct src, dst; simpl; try reflexivity. now contradiction Hne. }
  rewrite Hnull. cbn [andb].
  unfold engine.from_uci.
  assert (Hzero : forall rest,
             String.eqb (String (engine.file_char (src mod 8)) rest) "0000" = false).
  { intros rest. cbn [String.eqb].
    destruct (file_char_cases (src mod 8)) as [<-|[<-|[<-|[<-|[<-|[<-|[<-|[<-|[]]]]]]]]];
      reflexivity. }
  unfold engine.name_of. cbn [String.append]. rewrite Hzero.
  change (String (engine.file_char (src mod 8))
            (String (engine.rank_char (src / 8 mod 8)) "")) with (engine.name_of src).
  change (String (engine.file_char (dst mod 8))
            (String (engine.rank_char (dst / 8 mod 8)) "")) with (engine.name_of dst).
  rewrite (parse_square_name_of src Hf), (parse_square_name_of dst Ht).
  cbn [Py.bind].
  apply Nat.eqb_neq in Hne.
  destruct promo as [k|]; cbn [Py.bind Py.ret].
  - assert (Hk : engine.kind_of_symbol (engine.symbol k) = Some k) by (destruct k; reflexivity).
    rewrite Hk. cbn [Py.bind Py.ret]. now rewrite Hne.
  - now rewrite Hne.
Qed.

Lemma read_moves_uci (ms : list engine.Move) :
  Forall writable ms -> engine.read_moves (map engine.uci ms) = Some ms.
Proof.
  induction 1 as [|m ms Hm _ IH]; [reflexivity|].
  cbn [map engine.read_moves]. now rewrite (from_uci_uci m Hm), IH.
Qed.

Lemma legal_line_writable (ms : list engine.Move) :
  chess.LegalLine ms -> Forall writable ms.
Proof.
  induction 1 as [|ms m _ IH Hm]; [constructor|].
  apply Forall_app. split; [exact IH|]. constructor; [|constructor].
  destruct (engine_legal_on_board _ _ Hm) as (H1 & H2 & H3 & _).
  repeat split; assumption.
Qed.

Lemma reference_read_to_str (g : chess.pgn.Game) :
  chess.pgn.roster_only g = true -> chess.pgn.linear g = true ->
  chess.LegalLine (chess.pgn.mainline_moves g) ->
  exists g', reference_read_game (reference_to_str g) = Some g' /\
             chess.pgn.mainline_moves g' = chess.pgn.mainline_moves g.
Proof.
  intros _ _ Hlegal. unfold reference_read_game, reference_to_str.
  rewrite words_movetext, (read_moves_uci _ (legal_line_writable _ Hlegal)).
  eexists. split; [reflexivity|].
  unfold chess.pgn.mainline_moves at 1. rewrite mainline_chain, map_map. simpl.
  apply map_id.
Qed.

End ReferenceCodec.

#[export] Instance reference_codec : chess.pgn.Codec := {|
  chess.pgn.to_str := reference_to_str;
  chess.pgn.read_game := reference_read_game;
  chess.pgn.read_to_str := reference_read_to_str
|}.

(** ** The scenarios, run with the reference model *)

Definition a_day : Py.date := {| Py.year := 2025; Py.month := 3; Py.day := 9 |}.

Definition post_square (name : string) : app.Request :=
  {| app.method := "POST"; app.form := [("square", name)];
     app.username_cookie := None; app.now := a_day |}.

(** The state after Alice's e2e4. *)
Definition after_e2e4 : app.App :=
  app.serve app.App_init [(app.Make_move, post_move "e2e4" "Alice" a_day)].


(** After e2e4 the owner list and the move stack both hold one entry. *)
Lemma owners_aligned_after_e2e4 :
  owners_aligned after_e2e4 /\
  List.length (app.move_owners after_e2e4) = 1.
Proof.
  split; [|vm_compute; reflexivity].
  exact (proj2 (proj2 (owners_aligned_always (L := reference_lib) (C := reference_codec)))
           [(app.Make_move, post_move "e2e4" "Alice" a_day)]).
Defined.

(** e2e4 and e7e5 are legal in turn from the starting position. *)
Lemma alice_then_bob_reference :
  app.outcome (app.make_move app.App_init (post_move "e2e4" "Alice" a_day)) =
    inr (app.Json_ok (chess.fen (chess.push chess.Board_new engine.e2e4)) "black"
           [move_row 1 "e2e4" "Alice" "waiting" "waiting"]) /\
  app.outcome
    (app.make_move
       (app.state (app.make_move app.App_init (post_move "e2e4" "Alice" a_day)))
       (post_move "e7e5" "Bob" a_day)) =
    inr (app.Json_ok
           (chess.fen (chess.push (chess.push chess.Board_new engine.e2e4) engine.e7e5))
           "white" [move_row 1 "e2e4" "Alice" "e7e5" "Bob"]).
Proof.
  apply (alice_then_bob (L := reference_lib) (C := reference_codec) engine.e2e4 engine.e7e5 a_day a_day); vm_compute; reflexivity.
Defined.

(** After Scholar's mate the status is White's win; at the start it is White
    to move. *)
Lemma status_text_reference :
  helper.status_text (engine.after engine.scholars_mate) = "Checkmate! White wins!" /\
  helper.status_text engine.Board_new = "White to move.".
Proof.
  split.
  - apply (proj1 (status_text_cases (L := reference_lib) (engine.after engine.scholars_mate)));
      vm_compute; reflexivity.
  - apply (proj2 (proj2 (status_text_cases (L := reference_lib) engine.Board_new)));
      vm_compute; reflexivity.
Defined.

(** The pawn on e2 can go to e3 and e4; a3 is empty. *)
Lemma legal_moves_reference :
  app.outcome (app.legal_moves app.App_init (post_square "e2")) =
    inr (app.Json_moves ["e3"; "e4"]) /\
  app.outcome (app.legal_moves app.App_init (post_square "a3")) = inr (app.Json_moves []) /\
  app.outcome (app.legal_moves app.App_init (post_square "z9")) = inr (app.Json_moves []).
Proof.
  destruct (legal_moves_answers (L := reference_lib) app.App_init (post_square "a3")) as (dests & Hout & _ & _ & H).
  destruct (H 16) as (_ & Hempty & _); [vm_compute; reflexivity|].
  rewrite Hout, Hempty by (vm_compute; reflexivity).
  repeat split; vm_compute; reflexivity.
Defined.

(** After e2e4 the one row is open and it is the last row. *)
Lemma open_row_after_e2e4 :
  rows after_e2e4 = [move_row 1 "e2e4" "Alice" "waiting" "waiting"] /\
  open_only_last (rows after_e2e4).
Proof.
  split; [vm_compute; reflexivity|].
  exact (proj1 (proj2 (proj2 (proj2 (open_row_is_last (L := reference_lib) (C := reference_codec)))))
           [(app.Make_move, post_move "e2e4" "Alice" a_day)]).
Defined.

(** Bob's e7e5 after Alice's e2e4: the orientation is black, the row list
    ends with the open row, and the attempt is answered. *)
Lemma black_move_reference :
  exists rs r,
    rows after_e2e4 = rs ++ [r] /\ row_open r = true /\
    exists resp,
      app.outcome (app.make_move after_e2e4 (post_move "e7e5" "Bob" a_day)) = inr resp.
Proof.
  destruct (proj2 (black_move_fills_last_row (L := reference_lib) (C := reference_codec)
                     [(app.Make_move, post_move "e2e4" "Alice" a_day)])
              (post_move "e7e5" "Bob" a_day) engine.e7e5)
    as (rs & r & Hrows & Hopen & _ & Hmove);
    [vm_compute; reflexivity|vm_compute; reflexivity|vm_compute; reflexivity|].
  exists rs, r. split; [exact Hrows|]. split; [exact Hopen|].
  unfold after_e2e4. rewrite Hmove. simpl. eauto.
Defined.

(** "e2e5" names two squares but no legal move, and "hello" no squares at
    all: the library rejects both texts, and the attempt is refused as
    invalid syntax. *)
Lemma make_move_invalid_reference :
  app.outcome (app.make_move app.App_init (post_move "e2e5" "Alice" a_day))
    = inr (app.Json_error "Invalid move syntax.") /\
  app.outcome (app.make_move app.App_init (post_move "hello" "Alice" a_day))
    = inr (app.Json_error "Invalid move syntax.").
Proof.
  split.
  - apply (make_move_invalid_syntax (L := reference_lib) (C := reference_codec)
             app.App_init (post_move "e2e5" "Alice" a_day) Py.ValueError).
    vm_compute; reflexivity.
  - apply (make_move_invalid_syntax (L := reference_lib) (C := reference_codec)
             app.App_init (post_move "hello" "Alice" a_day) Py.ValueError).
    vm_compute; reflexivity.
Defined.

(** Three half-moves make one full row and one open row. *)
Lemma rows_after_three_moves :
  rows (app.serve app.App_init
          [(app.Make_move, post_move "e2e4" "Alice" a_day);
           (app.Make_move, post_move "e7e5" "Bob" a_day);
           (app.Make_move, post_move "g1f3" "Carol" a_day)]) =
  [move_row 1 "e2e4" "Alice" "e7e5" "Bob";
   move_row 2 "g1f3" "Carol" "waiting" "waiting"].
Proof.
  rewrite (rows_follow_the_game (L := reference_lib) (C := reference_codec)).
  vm_compute. reflexivity.
Defined.



(** ** More scenarios with the reference model *)

Lemma engine_turn_push (b : engine.Board) (s : string) (m : engine.Move) :
  engine.parse_uci b s = inr m -> engine.legal_moves_contains b m = true ->
  engine.turn (engine.position (engine.push b m)) = negb (engine.turn (engine.position b)).
Proof.
  intros _ _. unfold engine.push, engine.apply_move. cbn [engine.position].
  destruct (engine.piece_on _ _); reflexivity.
Qed.

#[export] Instance reference_turns : TurnContract := {|
  turn_new := eq_refl;
  turn_push := engine_turn_push
|}.

Definition row_e2e4_open : helper.MoveRow :=
  move_row 1 "e2e4" "Alice" "waiting" "waiting".

(** The first half-move of a game, recorded on an empty tracker. *)
Lemma update_moves_list_white_reference :
  helper.update_moves_list helper.PGN_Tracker_init (engine.after [engine.e2e4])
    ["Alice"] "white" =
  ({| helper.moves_list := [row_e2e4_open] |}, inr tt).
Proof.
  destruct (update_moves_list_white_appends (L := reference_lib)
              helper.PGN_Tracker_init (engine.after [engine.e2e4]) ["Alice"] []
              [] engine.e2e4 "Alice" eq_refl eq_refl)
    as (r & E & Hn & Hwm & Hwu & Hbm & Hbu).
  rewrite E. destruct r. simpl in *. subst. reflexivity.
Defined.

(** The reply, recorded with the orientation text "Black". *)
Lemma update_moves_list_black_reference :
  helper.update_moves_list {| helper.moves_list := [row_e2e4_open] |}
    (engine.after [engine.e2e4; engine.e7e5]) ["Alice"; "Bob"] "Black" =
  ({| helper.moves_list := [move_row 1 "e2e4" "Alice" "e7e5" "Bob"] |}, inr tt).
Proof.
  destruct (update_moves_list_black_fills (L := reference_lib)
              {| helper.moves_list := [row_e2e4_open] |}
              (engine.after [engine.e2e4; engine.e7e5]) ["Alice"; "Bob"] ["Alice"]
              [engine.e2e4] engine.e7e5 "Bob" "Black" [] row_e2e4_open)
    as (r & E & Hn & Hwm & Hwu & Hbm & Hbu);
    [discriminate|reflexivity|reflexivity|reflexivity|].
  rewrite E. destruct r. simpl in *. subst. reflexivity.
Defined.

(** A black half-move with no row to fill, and any half-move on a board
    without moves: IndexError, the tracker untouched. *)
Lemma update_moves_list_raises_reference :
  helper.update_moves_list helper.PGN_Tracker_init (engine.after [engine.e2e4])
    ["Alice"] "black" = (helper.PGN_Tracker_init, inl Py.IndexError) /\
  helper.update_moves_list {| helper.moves_list := [row_e2e4_open] |} engine.Board_new
    ["Alice"] "white" = ({| helper.moves_list := [row_e2e4_open] |}, inl Py.IndexError).
Proof.
  split.
  - apply (proj2 (proj2 (update_moves_list_raises (L := reference_lib)
                           helper.PGN_Tracker_init (engine.after [engine.e2e4])
                           ["Alice"] "black"))); [discriminate|reflexivity].
  - apply (proj1 (update_moves_list_raises (L := reference_lib)
                    {| helper.moves_list := [row_e2e4_open] |} engine.Board_new
                    ["Alice"] "white")). reflexivity.
Defined.

(** The reply recorded with an empty owner list: IndexError, and the row
    holds the move but still "waiting" for its user. *)
Lemma update_moves_list_half_written_reference :
  helper.update_moves_list {| helper.moves_list := [row_e2e4_open] |}
    (engine.after [engine.e2e4; engine.e7e5]) [] "black" =
  ({| helper.moves_list := [move_row 1 "e2e4" "Alice" "e7e5" "waiting"] |},
   inl Py.IndexError).
Proof.
  rewrite (update_moves_list_half_written (L := reference_lib)
             {| helper.moves_list := [row_e2e4_open] |}
             (engine.after [engine.e2e4; engine.e7e5]) "black"
             [engine.e2e4] engine.e7e5 [] row_e2e4_open);
    [reflexivity|discriminate|reflexivity|reflexivity].
Defined.

(** An orientation that is neither white nor black goes to white. *)
Lemma toggle_orientation_sideways :
  helper.get_orientation
    (helper.toggle_orientation {| helper.orientation := "sideways" |}) = "white" /\
  helper.toggle_orientation
    (helper.toggle_orientation {| helper.orientation := "black" |}) =
    {| helper.orientation := "black" |}.
Proof.
  split.
  - apply (proj1 (proj2 (toggle_orientation_twice {| helper.orientation := "sideways" |}))).
    discriminate.
  - apply (proj1 (toggle_orientation_twice {| helper.orientation := "black" |})).
    now right.
Defined.

(** The event of Alice's e2e4: the position after the move, Black to move. *)
Lemma board_update_after_e2e4 :
  exists ev,
    app.emitted (app.handle app.App_init (app.Make_move, post_move "e2e4" "Alice" a_day))
      = [ev] /\
    app.bu_fen ev = "rnbqkbnr/pppppppp/8/8/4P3/8/PPPP1PPP/RNBQKBNR b KQkq - 0 1" /\
    app.bu_statusText ev = "Black to move." /\
    app.bu_orientation ev = "black" /\
    app.bu_moves ev = Some [row_e2e4_open].
Proof.
  destruct (proj1 (proj2 (proj2 (board_update_events (L := reference_lib)
                                   (C := reference_codec) app.App_init
                                   (app.Make_move, post_move "e2e4" "Alice" a_day))))
              eq_refl) as (ev & rows1 & E & _); [vm_compute; reflexivity|].
  exists ev. split; [exact E|].
  vm_compute in E. injection E as <-. repeat split.
Defined.

(** After Alice's e2e4 it is Black's turn and the orientation is black. *)
Lemma orientation_after_e2e4 :
  current_orientation after_e2e4 = "black" /\
  chess.turn (app.board after_e2e4) = false.
Proof.
  split; [|vm_compute; reflexivity]. unfold after_e2e4.
  rewrite (orientation_is_side_to_move (L := reference_lib) (C := reference_codec)
             (T := reference_turns)).
  vm_compute. reflexivity.
Defined.

(** A move posted without a cookie, or with an empty one, is Anonymous's. *)
Lemma anonymous_owner :
  app.move_owners
    (app.state (app.make_move app.App_init
       {| app.method := "POST"; app.form := [("move", "e2e4")];
          app.username_cookie := None; app.now := a_day |})) = ["Anonymous"] /\
  app.move_owners
    (app.state (app.make_move app.App_init
       {| app.method := "POST"; app.form := [("move", "e2e4")];
          app.username_cookie := Some ""; app.now := a_day |})) = ["Anonymous"].
Proof.
  split.
  - rewrite (proj2 (owners_never_empty (L := reference_lib) (C := reference_codec) [])
               app.App_init _); [reflexivity|vm_compute; reflexivity].
  - rewrite (proj2 (owners_never_empty (L := reference_lib) (C := reference_codec) [])
               app.App_init _); [reflexivity|vm_compute; reflexivity].
Defined.

Definition three_moves : list (app.Route * app.Request) :=
  [(app.Make_move, post_move "e2e4" "Alice" a_day);
   (app.Make_move, post_move "e7e5" "Bob" a_day);
   (app.Make_move, post_move "g1f3" "Carol" a_day)].

(** Three half-moves: two rows, numbered 1 and 2. *)
Lemma rows_count_three_moves :
  List.length (rows (app.serve app.App_init three_moves)) = 2 /\
  map helper.Move_no (rows (app.serve app.App_init three_moves)) = [1; 2].
Proof.
  split; [|vm_compute; reflexivity].
  rewrite (proj1 (rows_count_and_numbers (L := reference_lib) (C := reference_codec)
                    three_moves)).
  vm_compute. reflexivity.
Defined.

(** Both knights out and back, four times over: the starting position has
    come up five times. *)
Definition knights_dance : list (app.Route * app.Request) :=
  let round :=
    [(app.Make_move, post_move "g1f3" "Alice" a_day);
     (app.Make_move, post_move "g8f6" "Bob" a_day);
     (app.Make_move, post_move "f3g1" "Alice" a_day);
     (app.Make_move, post_move "f6g8" "Bob" a_day)] in
  round ++ round ++ round ++ round.

(** After the fivefold repetition the game is over, a draw, and e2e4 is
    accepted all the same. *)
Lemma move_accepted_after_draw :
  chess.is_game_over (app.board (app.serve app.App_init knights_dance)) = true /\
  helper.status_text (app.board (app.serve app.App_init knights_dance))
    = "Game over. Draw!" /\
  app.succeeded
    (app.make_move (app.serve app.App_init knights_dance)
       (post_move "e2e4" "Alice" a_day)) = true.
Proof.
  split; [vm_compute; reflexivity|]. split; [vm_compute; reflexivity|].
  apply (proj1 (make_move_succeeds_iff_legal (L := reference_lib) (C := reference_codec)
                  knights_dance (post_move "e2e4" "Alice" a_day))).
  exists engine.e2e4. split; vm_compute; reflexivity.
Defined.

(** A GET without a cookie is shown the login page. *)
Lemma index_login_page :
  app.outcome
    (app.index app.App_init
       {| app.method := "GET"; app.form := []; app.username_cookie := None;
          app.now := a_day |}) = inr (app.Rendered "login.html" []).
Proof.
  apply (proj1 (proj2 (proj2 (proj2 (index_pages (L := reference_lib) app.App_init _)))));
    [reflexivity|now left].
Defined.

(** e2e4 is accepted at the start, and "e4" is among the destinations
    offered from e2. *)
Lemma e2e4_was_offered :
  exists dests,
    app.outcome (app.legal_moves app.App_init (post_square "e2")) =
      inr (app.Json_moves dests) /\
    In "e4" dests.
Proof.
  destruct (accepted_move_was_offered (L := reference_lib) app.App_init
              (post_move "e2e4" "Alice" a_day) (post_square "e2") engine.e2e4)
    as (dests & d & Hout & Hd & Hin);
    [vm_compute; reflexivity|vm_compute; reflexivity|vm_compute; reflexivity|].
  exists dests. split; [exact Hout|].
  vm_compute in Hd. injection Hd as <-. exact Hin.
Defined.
